(** * Radius agent: intent routing, response generators and the chat route

    A shallow embedding of [lib/agent.ts] (the intent classifier, the
    expression evaluator, the response generators and the dispatcher
    [runAgent]) and of [app/api/chat/route.ts] (the [POST] handler),
    followed by the properties the specification states about them.

    Conventions.
    - A JavaScript string is the list of its UTF-16 code units ([jsstring]).
    - A regular expression literal is a [regex] term; [test] is
      [RegExp.prototype.test] for a pattern without the global flag.
    - A JavaScript number is a binary64 float ([float]).
    - TypeScript types are erased at run time and the route casts the parsed
      request body to [AgentMessage[]] without checking it, so the functions
      that read messages work on parsed JSON values and may raise a
      [TypeError]; [ofMessages] embeds the well-typed histories.
    - [parser.evaluate] (package expr-eval) and the number formatting
      built-ins are the fields of the [Runtime] class. *)

From Stdlib Require Import List NArith ZArith Bool Lia String Ascii Floats.
From Stdlib Require Import Permutation Sorted.
Import ListNotations.

Set Implicit Arguments.

(* ================================================================= *)
(** ** Strings *)

Definition char := N.
Definition jsstring := list char.

Open Scope N_scope.

(** An ASCII literal as a JavaScript string. *)
Definition lit (s : string) : jsstring :=
  List.map N_of_ascii (list_ascii_of_string s).

Definition dquote : char := 34.
Definition emdash : char := 8212.
Definition newline : char := 10.

Fixpoint str_eqb (a b : jsstring) : bool :=
  match a, b with
  | [], [] => true
  | x :: a', y :: b' => (x =? y) && str_eqb a' b'
  | _, _ => false
  end.

(** [0-9] *)
Definition isDigit (c : char) : bool := (48 <=? c) && (c <=? 57).

(** ECMAScript LineTerminator: LF, CR, LS, PS. *)
Definition isLineTerminator (c : char) : bool :=
  existsb (N.eqb c) [10; 13; 8232; 8233].

(** [\s]: ECMAScript WhiteSpace and LineTerminator code units. It is also the
    set that [String.prototype.trim] strips. *)
Definition isSpace (c : char) : bool :=
  existsb (N.eqb c) [9; 11; 12; 32; 160; 5760; 8239; 8287; 12288; 65279]
  || ((8192 <=? c) && (c <=? 8202))
  || isLineTerminator c.

(** Canonicalize of a case-insensitive pattern without the unicode flag,
    compared against ASCII pattern characters only: a code unit above 127
    never canonicalizes to an ASCII one, so folding a-z is all that can make
    two code units meet. *)
Definition canon (c : char) : char :=
  if (97 <=? c) && (c <=? 122) then c - 32 else c.

Fixpoint trimStart (s : jsstring) : jsstring :=
  match s with
  | [] => []
  | c :: s' => if isSpace c then trimStart s' else s
  end.

Definition trimEnd (s : jsstring) : jsstring := rev (trimStart (rev s)).

(** [s.trim()] *)
Definition trim (s : jsstring) : jsstring := trimEnd (trimStart s).

(** [parts.join(sep)] *)
Fixpoint join (sep : jsstring) (parts : list jsstring) : jsstring :=
  match parts with
  | [] => []
  | [p] => p
  | p :: rest => p ++ sep ++ join sep rest
  end.

(** [s.split(/a|b|c/)] for a pattern that matches exactly one code unit of
    the class [sep]: always at least one piece. *)
Fixpoint splitOn (sep : char -> bool) (s : jsstring) : list jsstring :=
  match s with
  | [] => [[]]
  | c :: s' =>
      if sep c then [] :: splitOn sep s'
      else match splitOn sep s' with
           | [] => [[c]]
           | p :: ps => (c :: p) :: ps
           end
  end.

(** [s.replace(/\s+/g, " ")]: every maximal run of white space becomes one
    space. [inRun] tells that the previous code unit was white space, whose
    run has already been replaced. *)
Fixpoint collapseFrom (inRun : bool) (s : jsstring) : jsstring :=
  match s with
  | [] => []
  | c :: s' =>
      if isSpace c
      then (if inRun then collapseFrom true s' else 32 :: collapseFrom true s')
      else c :: collapseFrom false s'
  end.

Definition collapseSpaces (s : jsstring) : jsstring := collapseFrom false s.

(** Decimal rendering of an integer inside a template literal. *)
Fixpoint uintChars (d : Decimal.uint) : jsstring :=
  match d with
  | Decimal.Nil => []
  | Decimal.D0 d => 48 :: uintChars d
  | Decimal.D1 d => 49 :: uintChars d
  | Decimal.D2 d => 50 :: uintChars d
  | Decimal.D3 d => 51 :: uintChars d
  | Decimal.D4 d => 52 :: uintChars d
  | Decimal.D5 d => 53 :: uintChars d
  | Decimal.D6 d => 54 :: uintChars d
  | Decimal.D7 d => 55 :: uintChars d
  | Decimal.D8 d => 56 :: uintChars d
  | Decimal.D9 d => 57 :: uintChars d
  end.

Definition intToString (z : Z) : jsstring :=
  match Z.to_int z with
  | Decimal.Pos d => uintChars d
  | Decimal.Neg d => 45 :: uintChars d
  end.

(** [arr.map((x, index) => f x index)], the index starting at [i]. *)
Fixpoint mapiFrom {A B : Type} (f : A -> Z -> B) (i : Z) (l : list A) : list B :=
  match l with
  | [] => []
  | x :: l' => f x i :: mapiFrom f (i + 1)%Z l'
  end.

Definition mapi {A B : Type} (f : A -> Z -> B) (l : list A) : list B :=
  mapiFrom f 0%Z l.

(** [arr.slice(-n)] *)
Definition sliceLast {A : Type} (n : nat) (l : list A) : list A :=
  skipn (List.length l - n) l.

(* ================================================================= *)
(** ** Regular expressions *)

Inductive regex : Type :=
| Fail
| Eps
| Chr (p : char -> bool)
| Cat (r1 r2 : regex)
| Alt (r1 r2 : regex)
| Star (r : regex).

(** [r+] and [r?] *)
Definition Plus (r : regex) : regex := Cat r (Star r).
Definition Opt (r : regex) : regex := Alt r Eps.

(** A literal character, and one under the [i] flag. *)
Definition exact (c : char) : char -> bool := fun x => x =? c.
Definition anyCase (c : char) : char -> bool := fun x => canon x =? canon c.

(** [.] *)
Definition dot : char -> bool := fun x => negb (isLineTerminator x).

(** A literal word under the [i] flag. *)
Definition wordi (w : string) : regex :=
  fold_right (fun c r => Cat (Chr (anyCase c)) r) Eps (lit w).

(** [r1|r2|...] and [r1r2...] *)
Definition alts (rs : list regex) : regex := fold_right Alt Fail rs.
Definition seqs (rs : list regex) : regex := fold_right Cat Eps rs.

(** An alternation [w1|w2|...] of literal words under the [i] flag. *)
Definition wordsi (ws : list string) : regex := alts (List.map wordi ws).

(** The words a pattern denotes. *)
Inductive Matches : regex -> jsstring -> Prop :=
| MEps : Matches Eps []
| MChr p c : p c = true -> Matches (Chr p) [c]
| MCat r1 r2 s1 s2 : Matches r1 s1 -> Matches r2 s2 -> Matches (Cat r1 r2) (s1 ++ s2)
| MAltL r1 r2 s : Matches r1 s -> Matches (Alt r1 r2) s
| MAltR r1 r2 s : Matches r2 s -> Matches (Alt r1 r2) s
| MStarNil r : Matches (Star r) []
| MStarCons r s1 s2 : Matches r s1 -> Matches (Star r) s2 -> Matches (Star r) (s1 ++ s2).

Fixpoint nullable (r : regex) : bool :=
  match r with
  | Fail => false
  | Eps => true
  | Chr _ => false
  | Cat r1 r2 => nullable r1 && nullable r2
  | Alt r1 r2 => nullable r1 || nullable r2
  | Star _ => true
  end.

(** The residual of [r] after reading [c]. *)
Fixpoint deriv (c : char) (r : regex) : regex :=
  match r with
  | Fail => Fail
  | Eps => Fail
  | Chr p => if p c then Eps else Fail
  | Cat r1 r2 =>
      if nullable r1
      then Alt (Cat (deriv c r1) r2) (deriv c r2)
      else Cat (deriv c r1) r2
  | Alt r1 r2 => Alt (deriv c r1) (deriv c r2)
  | Star r1 => Cat (deriv c r1) (Star r1)
  end.

(** Does some prefix of [s] match [r]? *)
Fixpoint matchPrefix (r : regex) (s : jsstring) : bool :=
  nullable r ||
  match s with
  | [] => false
  | c :: s' => matchPrefix (deriv c r) s'
  end.

(** [r.test(s)]: does [r] match at some position of [s]? *)
Fixpoint test (r : regex) (s : jsstring) : bool :=
  matchPrefix r s ||
  match s with
  | [] => false
  | _ :: s' => test r s'
  end.

(* ================================================================= *)
(** ** Exceptions and run-time values *)

Inductive exn : Type := TypeError | SyntaxError | EvalError.

(** A computation that returns a value or throws. *)
Inductive result (A : Type) : Type :=
| Ok (a : A)
| Throw (e : exn).

Arguments Ok {A} a.
Arguments Throw {A} e.

Definition bind {A B : Type} (m : result A) (k : A -> result B) : result B :=
  match m with
  | Ok a => k a
  | Throw e => Throw e
  end.

Notation "x <- m ;; k" := (bind m (fun x => k))
  (at level 61, m at next level, right associativity).

(** [arr.filter(p)] and [arr.map(f)] with callbacks that may throw. *)
Fixpoint filterM {A : Type} (p : A -> result bool) (l : list A) : result (list A) :=
  match l with
  | [] => Ok []
  | x :: l' =>
      keep <- p x ;;
      rest <- filterM p l' ;;
      Ok (if keep then x :: rest else rest)
  end.

Fixpoint mapM {A B : Type} (f : A -> result B) (l : list A) : result (list B) :=
  match l with
  | [] => Ok []
  | x :: l' =>
      y <- f x ;;
      rest <- mapM f l' ;;
      Ok (y :: rest)
  end.

(** [arr.find(p)]; [None] is [undefined]. *)
Fixpoint findM {A : Type} (p : A -> result bool) (l : list A) : result (option A) :=
  match l with
  | [] => Ok None
  | x :: l' =>
      hit <- p x ;;
      if hit then Ok (Some x) else findM p l'
  end.

(** A parsed JSON value. *)
Unset Elimination Schemes.
Inductive json : Type :=
| JNull
| JBool (b : bool)
| JNumber (x : float)
| JString (s : jsstring)
| JArray (items : list json)
| JObject (fields : list (jsstring * json)).
Set Elimination Schemes.

Fixpoint lookup (k : jsstring) (fields : list (jsstring * json)) : option json :=
  match fields with
  | [] => None
  | (k', v) :: rest => if str_eqb k k' then Some v else lookup k rest
  end.

(** [v.k] for the keys this program reads ([messages], [role], [content]),
    none of which is inherited from a prototype: [None] is [undefined], and
    reading a property of [null] is a [TypeError]. *)
Definition getProp (v : json) (k : string) : result (option json) :=
  match v with
  | JNull => Throw TypeError
  | JObject fields => Ok (lookup (lit k) fields)
  | _ => Ok None
  end.

(** [v?.k] *)
Definition getPropOpt (v : json) (k : string) : result (option json) :=
  match v with
  | JNull => Ok None
  | _ => getProp v k
  end.

(** [v ?? d] *)
Definition nullish (v : option json) (d : json) : json :=
  match v with
  | None | Some JNull => d
  | Some x => x
  end.

(** [v === "k"] *)
Definition isString (k : string) (v : option json) : bool :=
  match v with
  | Some (JString s) => str_eqb s (lit k)
  | _ => false
  end.

(** The receiver of a [String.prototype] method call such as [v.trim()]:
    on anything but a string the method is missing (or [v] is nullish), and
    the call is a [TypeError]. *)
Definition stringReceiver (v : option json) : result jsstring :=
  match v with
  | Some (JString s) => Ok s
  | _ => Throw TypeError
  end.

(** What [parser.evaluate] may return. *)
Inductive jsvalue : Type :=
| VNumber (x : float)
| VOther.

(** [Number.isFinite(x)] *)
Definition isFinite (x : float) : bool :=
  negb (PrimFloat.is_nan x || PrimFloat.is_infinity x).

(** The expression parser of package expr-eval and the number formatting
    built-ins of the host. *)
Class Runtime : Type := {
  (** [parser.evaluate(expression)] *)
  evaluate : jsstring -> result jsvalue;
  (** [x.toLocaleString(undefined, { maximumFractionDigits: d })] *)
  toLocaleString : float -> nat -> jsstring;
  (** [x.toPrecision(p)] *)
  toPrecision : float -> nat -> jsstring;
  (** [Number(s)] *)
  toNumber : jsstring -> float;
  (** [x.toString()] *)
  numberToString : float -> jsstring
}.

(* ================================================================= *)
(** ** lib/agent.ts: data *)

Inductive AgentRole : Type := System | User | Assistant.

Record AgentMessage : Type := {
  role : AgentRole;
  content : jsstring
}.

Record AgentStep : Type := {
  title : jsstring;
  stepContent : jsstring
}.

Record AgentReply : Type := {
  replyRole : AgentRole;
  replyContent : jsstring;
  steps : list AgentStep;
  suggestions : list jsstring
}.

Inductive Intent : Type :=
| Math | Plan | Brainstorm | Summarize | Prioritize | Insight.

Definition roleName (r : AgentRole) : string :=
  match r with
  | System => "system"
  | User => "user"
  | Assistant => "assistant"
  end.

Definition intentName (i : Intent) : string :=
  match i with
  | Math => "math"
  | Plan => "plan"
  | Brainstorm => "brainstorm"
  | Summarize => "summarize"
  | Prioritize => "prioritize"
  | Insight => "insight"
  end.

(** The JSON value of a well-typed message, and of a well-typed history. *)
Definition ofMessage (m : AgentMessage) : json :=
  JObject [(lit "role", JString (lit (roleName (role m))));
           (lit "content", JString (content m))].

Definition ofMessages (history : list AgentMessage) : list json :=
  List.map ofMessage history.

(* ================================================================= *)
(** ** lib/agent.ts: the expression evaluator *)

(** The class [[0-9+\-*/%^().\s]]. *)
Definition isMathChar (c : char) : bool :=
  isDigit c
  || existsb (N.eqb c) [43; 45; 42; 47; 37; 94; 40; 41; 46]
  || isSpace c.

Definition comma : char := 44.

(** The [candidate] of [cleanExpression]: the characters outside the class
    [[0-9+\-*/%^().,\s]] are removed, then the commas. *)
Definition sanitize (input : jsstring) : jsstring :=
  filter (fun c => negb (c =? comma))
         (filter (fun c => isMathChar c || (c =? comma)) input).

Definition cleanExpression (input : jsstring) : option jsstring :=
  let candidate := sanitize input in
  match trim candidate with
  | [] => None
  | _ :: _ =>
      if negb (test (Chr isDigit) candidate) then None else Some candidate
  end.

Definition noExpressionMessage : jsstring :=
  lit "I could not detect a solvable expression. Try something like `3 * (12 + 4)`.".

Definition nonNumericMessage : jsstring :=
  lit "That expression resolves to a non-numeric result, which I do not support yet.".

Definition malformedMessage : jsstring :=
  lit "That expression seems malformed. Try using only numbers and standard operators.".

Section Evaluator.
Context {rt : Runtime}.

Definition formatResult (x : float) : jsstring :=
  if PrimFloat.leb 1000 (PrimFloat.abs x)
  then toLocaleString x 4
  else numberToString (toNumber (toPrecision x 8)).

Definition calculateExpression (input : jsstring) : jsstring :=
  match cleanExpression input with
  | None | Some [] => noExpressionMessage
  | Some expression =>
      match evaluate expression with
      | Ok (VNumber x) =>
          if isFinite x
          then lit "The expression " ++ trim expression
               ++ lit " evaluates to **" ++ formatResult x ++ lit "**."
          else nonNumericMessage
      | Ok VOther => nonNumericMessage
      | Throw _ => malformedMessage
      end
  end.

(** The answer for a finite result [x] of [expression]. *)
Definition successText (expression : jsstring) (x : float) : jsstring :=
  lit "The expression " ++ trim expression
  ++ lit " evaluates to **" ++ formatResult x ++ lit "**.".

End Evaluator.

(* ================================================================= *)
(** ** lib/agent.ts: the response generators *)

Definition numbered (text : jsstring) (index : Z) : jsstring :=
  intToString (index + 1) ++ lit ". " ++ text.

Definition buildPlan (goal : jsstring) : jsstring :=
  let trimmed := trim goal in
  let tasks :=
    [ lit "Clarify the true objective and define a measurable finish line for "
        ++ [dquote] ++ trimmed ++ [dquote] ++ lit ".";
      lit "List the constraints (time, budget, collaborators) so we can work within them.";
      lit "Break the work into 3-5 atomic actions that can each be completed in one sitting.";
      lit "Sequence the actions by impact and dependency, then block time for the first step.";
      lit "Create a feedback hook " ++ [emdash]
        ++ lit " what evidence will tell us we can adjust or stop?" ] in
  join [newline] (mapi numbered tasks).

Definition brainstormIdeas (topic : jsstring) : jsstring :=
  let angles :=
    [ lit "Unexpected partnerships or audiences";
      lit "Moments in the customer journey you can delight";
      lit "Small experiments you can ship this week";
      lit "Signals that prove the idea is working" ] in
  let ideas :=
    mapi (fun angle idx =>
            intToString (idx + 1) ++ lit ". " ++ angle ++ lit " " ++ [emdash]
            ++ lit " specifically for " ++ [dquote] ++ trim topic ++ [dquote]
            ++ lit ". Think about what would feel refreshing compared to the status quo.")
         angles in
  join [newline] ideas.

Definition nothingToSummarise : jsstring :=
  lit "We've just started chatting, so there's nothing to summarise yet.".

Definition summaryHeader : jsstring := lit "Here's what we covered recently:".

(** One bullet of the summary, from the speaker's role and the content. *)
Definition bulletLine (fromAssistant : bool) (text : jsstring) : jsstring :=
  lit "- " ++ lit (if fromAssistant then "Radius" else "You") ++ lit ": "
  ++ trim (collapseSpaces text).

Definition summarizeConversation (history : list json) : result jsstring :=
  lastFew <- filterM (fun item =>
                        r <- getProp item "role" ;;
                        Ok (negb (isString "system" r)))
                     (sliceLast 6 history) ;;
  match lastFew with
  | [] => Ok nothingToSummarise
  | _ :: _ =>
      bulletPoints <- mapM (fun item =>
                              r <- getProp item "role" ;;
                              c <- getProp item "content" ;;
                              text <- stringReceiver c ;;
                              Ok (bulletLine (isString "assistant" r) text))
                           lastFew ;;
      Ok (join [newline] (summaryHeader :: bulletPoints))
  end.

Record RankedTask : Type := {
  task : jsstring;
  score : Z;
  index : Z
}.

(** [/\n|,|;/] *)
Definition isTaskSeparator (c : char) : bool :=
  existsb (N.eqb c) [10; 44; 59].

Definition urgencyPattern : regex :=
  wordsi ["today"; "urgent"; "now"; "soon"; "asap"]%string.

Definition highImpactPattern : regex :=
  wordsi ["launch"; "client"; "revenue"; "milestone"; "deadline"]%string.

Definition mediumImpactPattern : regex :=
  wordsi ["review"; "prep"; "draft"]%string.

Definition urgencyScore (t : jsstring) : Z :=
  if test urgencyPattern t then 3 else 1.

Definition impactScore (t : jsstring) : Z :=
  if test highImpactPattern t then 3
  else if test mediumImpactPattern t then 2
  else 1.

Definition rankTask (t : jsstring) (i : Z) : RankedTask :=
  {| task := t; score := urgencyScore t * 2 + impactScore t; index := i |}.

(** The comparator [(a, b) => b.score - a.score || a.index - b.index]. *)
Definition compareRanked (a b : RankedTask) : Z :=
  let byScore := (score b - score a)%Z in
  if (byScore =? 0)%Z then (index a - index b)%Z else byScore.

(** [arr.sort(cmp)]: the sort is stable, and an element stays ahead of the
    ones it does not compare greater than. *)
Fixpoint insertBy {A : Type} (cmp : A -> A -> Z) (x : A) (l : list A) : list A :=
  match l with
  | [] => [x]
  | y :: l' => if (cmp x y <=? 0)%Z then x :: l else y :: insertBy cmp x l'
  end.

Definition sortBy {A : Type} (cmp : A -> A -> Z) (l : list A) : list A :=
  fold_right (insertBy cmp) [] l.

(** The comparator lets [x] stand before [y]. *)
Definition cmpBefore {A : Type} (cmp : A -> A -> Z) (x y : A) : Prop :=
  (cmp x y <= 0)%Z.

(** The candidate tasks: split, trim, keep the entries longer than 4. *)
Definition taskLines (input : jsstring) : list jsstring :=
  filter (fun line => (4 <? List.length line)%nat)
         (List.map trim (splitOn isTaskSeparator input)).

Definition rankedTasks (lines : list jsstring) : list RankedTask :=
  sortBy compareRanked (mapi rankTask lines).

Definition renderRanked (item : RankedTask) (position : Z) : jsstring :=
  intToString (position + 1) ++ lit ". " ++ task item ++ lit " " ++ [emdash]
  ++ lit " priority score " ++ intToString (score item).

Definition noTasksMessage : jsstring :=
  lit "Please provide a list of tasks separated by commas or new lines so I can rank them.".

Definition prioritiseTasks (input : jsstring) : jsstring :=
  let lines := taskLines input in
  match lines with
  | [] => noTasksMessage
  | _ :: _ => join [newline] (mapi renderRanked (rankedTasks lines))
  end.

Record KnowledgeEntry : Type := {
  triggers : list regex;
  response : jsstring
}.

Definition KNOWLEDGE_BASE : list KnowledgeEntry :=
  [ {| triggers := [wordsi ["productivity"; "focus"; "deep work"]%string];
       response :=
         lit "- Alternate 50 minutes of focus with 10-minute resets." ++ [newline]
         ++ lit "- Decide the single critical output before you start." ++ [newline]
         ++ lit "- Park distracting ideas in an inbox so you can return without losing flow." |};
    {| triggers := [wordsi ["marketing"; "campaign"; "launch"]%string];
       response :=
         lit "- Anchor on one memorable story per audience segment." ++ [newline]
         ++ lit "- Repurpose high-performing assets into quick experiments on new channels." ++ [newline]
         ++ lit "- Blend a fast feedback metric (CTR) with a slower health metric (share of conversation)." |};
    {| triggers := [wordsi ["learning"; "study"; "exam"]%string];
       response :=
         lit "- Begin with a spaced repetition sweep to surface weak spots." ++ [newline]
         ++ lit "- Convert theories into applied micro-projects within 24 hours." ++ [newline]
         ++ lit "- Teach the concept back to someone (or your notes) in plain language." |} ].

Definition matchKnowledge (input : jsstring) : option jsstring :=
  match find (fun entry => existsb (fun r => test r input) (triggers entry))
             KNOWLEDGE_BASE with
  | Some entry => Some (response entry)
  | None => None
  end.

(* ================================================================= *)
(** ** lib/agent.ts: the intent classifier *)

(** [/[0-9][0-9+\-*/%^().\s]+[0-9]/] *)
Definition mathPattern : regex :=
  seqs [Chr isDigit; Plus (Chr isMathChar); Chr isDigit].

(** [/plan|schedule|roadmap|steps|strategy/i] *)
Definition planPattern : regex :=
  wordsi ["plan"; "schedule"; "roadmap"; "steps"; "strategy"]%string.

(** [/idea|ideas|brainstorm|creative|names?/i] *)
Definition brainstormPattern : regex :=
  alts [wordi "idea"; wordi "ideas"; wordi "brainstorm"; wordi "creative";
        Cat (wordi "name") (Opt (Chr (anyCase 115)))].

(** [/summarise|summarize|recap|tl;dr/i] *)
Definition summarizePattern : regex :=
  wordsi ["summarise"; "summarize"; "recap"; "tl;dr"]%string.

(** [/prioriti[sz]e|ranking|order.*tasks|what to do first/i] *)
Definition prioritizePattern : regex :=
  alts [seqs [wordi "prioriti";
              Chr (fun c => anyCase 115 c || anyCase 122 c);
              wordi "e"];
        wordi "ranking";
        seqs [wordi "order"; Star (Chr dot); wordi "tasks"];
        wordi "what to do first"].

Definition classifyIntent (input : jsstring) : Intent :=
  if test mathPattern input then Math
  else if test planPattern input then Plan
  else if test brainstormPattern input then Brainstorm
  else if test summarizePattern input then Summarize
  else if test prioritizePattern input then Prioritize
  else Insight.

Definition followUpSuggestions (intent : Intent) : list jsstring :=
  match intent with
  | Math =>
      [ lit "Compare this result with another scenario";
        lit "Ask me to turn the numbers into a short explanation";
        lit "Create a table of outcomes with different variables" ]
  | Plan =>
      [ lit "Request a 7-day timeline for the plan";
        lit "Ask for the single most important milestone";
        lit "Turn the plan into calendar-friendly blocks" ]
  | Brainstorm =>
      [ lit "Narrow ideas down to one standout concept";
        lit "Turn this concept into a user journey";
        lit "Draft a 3-sentence pitch for the top idea" ]
  | Summarize =>
      [ lit "Extract action items from the summary";
        lit "Highlight risks or open questions";
        lit "Refine the summary for a stakeholder update" ]
  | Prioritize =>
      [ lit "Group tasks by effort versus impact";
        lit "Schedule the top task with a realistic time slot";
        lit "Delegate or defer the lowest priorities" ]
  | Insight =>
      [ lit "Ask me to dive deeper into one takeaway";
        lit "Layer in real constraints (time, budget, audience)";
        lit "Convert this into an actionable checklist" ]
  end.

(* ================================================================= *)
(** ** lib/agent.ts: the dispatcher *)

Definition step (t c : string) : AgentStep :=
  {| title := lit t; stepContent := lit c |}.

Definition idleReply : AgentReply :=
  {| replyRole := Assistant;
     replyContent := lit "I'm ready whenever you are.";
     steps := [step "Status" "No user input detected, so I am idling."];
     suggestions :=
       [ lit "Give me a goal with a tight deadline";
         lit "Ask me to condense a long message";
         lit "Share tasks and I will prioritise them" ] |}.

Definition reflectivePrompt : jsstring :=
  lit "- Reflect your objective in one sentence to confirm I understood it correctly."
  ++ [newline]
  ++ lit "- Identify one blocker or variable that worries you." ++ [newline]
  ++ lit "- Ask for a concrete artefact: plan, outline, script, calculation, or critique.".

Definition intentStep (intent : Intent) : AgentStep :=
  {| title := lit "Intent Detection";
     stepContent := lit "Input suggests a **" ++ lit (intentName intent)
                    ++ lit "** style response." |}.

Definition nextMoveStep : AgentStep :=
  step "Next Move" "Suggested follow-up paths to continue the session.".

Section Dispatcher.
Context {rt : Runtime}.

(** The [switch (intent)] of [runAgent]: the content and the step it pushes. *)
Definition respond (intent : Intent) (messages : list json) (userText : jsstring)
  : result (jsstring * AgentStep) :=
  match intent with
  | Math =>
      Ok (calculateExpression userText,
          step "Tool" "Evaluated arithmetic expression using the safe math parser.")
  | Plan =>
      Ok (buildPlan userText,
          step "Method" "Expanded request into a structured plan with five sequenced actions.")
  | Brainstorm =>
      Ok (brainstormIdeas userText,
          step "Method" "Generated four contrasting idea angles to encourage divergent thinking.")
  | Summarize =>
      summary <- summarizeConversation messages ;;
      Ok (summary,
          step "Method" "Compressed the last exchanges into a concise bullet-point recap.")
  | Prioritize =>
      Ok (prioritiseTasks userText,
          step "Method" "Ranked supplied tasks based on urgency and impact heuristics to highlight what to do first.")
  | Insight =>
      match matchKnowledge userText with
      | Some ((_ :: _) as insight) =>
          Ok (insight,
              step "Knowledge" "Matched the topic against the curated playbook and surfaced relevant tactics.")
      | _ =>
          Ok (reflectivePrompt,
              step "Fallback" "No direct tool matched, so I offered a structured prompt to refine the conversation.")
      end
  end.

Definition runAgent (messages : list json) : result AgentReply :=
  last <- findM (fun message =>
                   r <- getProp message "role" ;;
                   Ok (isString "user" r))
                (rev messages) ;;
  match last with
  | None => Ok idleReply
  | Some last =>
      c <- getProp last "content" ;;
      text <- stringReceiver c ;;
      let userText := trim text in
      let intent := classifyIntent userText in
      answer <- respond intent messages userText ;;
      Ok {| replyRole := Assistant;
            replyContent := fst answer;
            steps := [intentStep intent; snd answer; nextMoveStep];
            suggestions := followUpSuggestions intent |}
  end.

End Dispatcher.

(* ================================================================= *)
(** ** app/api/chat/route.ts *)

Inductive payload : Type :=
| ErrorBody (error : jsstring)
| ReplyBody (reply : AgentReply).

Record HttpResponse : Type := {
  status : Z;
  body : payload
}.

Definition badRequest : HttpResponse :=
  {| status := 400;
     body := ErrorBody (lit "Please provide at least one user message.") |}.

Definition serverError : HttpResponse :=
  {| status := 500;
     body := ErrorBody (lit "Unexpected agent error. Please try again.") |}.

Section Route.
Context {rt : Runtime}.

(** The body of the [try] block; [requestJson] is the outcome of
    [await request.json()]. *)
Definition handle (requestJson : result json) : result HttpResponse :=
  parsed <- requestJson ;;
  m <- getPropOpt parsed "messages" ;;
  match nullish m (JArray []) with
  | JArray ((_ :: _) as messages) =>
      reply <- runAgent messages ;;
      Ok {| status := 200; body := ReplyBody reply |}
  | _ => Ok badRequest
  end.

Definition POST (requestJson : result json) : HttpResponse :=
  match handle requestJson with
  | Ok r => r
  | Throw _ => serverError
  end.

End Route.

(* ================================================================= *)
(** ** A small runtime for the examples *)

(** A runtime that knows three expressions and the rendering of [4], as
    expr-eval and the host compute them: division by zero is [Infinity],
    [0/0] is [NaN], anything else is rejected. *)
Definition tableRuntime : Runtime :=
  {| evaluate e :=
       if str_eqb (trim e) (lit "1/0") then Ok (VNumber infinity)
       else if str_eqb (trim e) (lit "0/0") then Ok (VNumber nan)
       else if str_eqb (trim e) (lit "2+2") then Ok (VNumber 4)
       else Throw EvalError;
     toLocaleString x d := if PrimFloat.eqb x 4 then lit "4" else lit "NaN";
     toPrecision x p := if PrimFloat.eqb x 4 then lit "4.0000000" else lit "NaN";
     toNumber s := if str_eqb s (lit "4.0000000") then 4%float else nan;
     numberToString x := if PrimFloat.eqb x 4 then lit "4" else lit "NaN" |}.

(* ================================================================= *)
(** ** Vocabulary of the specification *)

(** The arithmetic operator characters [+ - * / % ^]. *)
Definition isOperator (c : char) : bool :=
  existsb (N.eqb c) [43; 45; 42; 47; 37; 94].

Definition hasDigit (s : jsstring) : bool := existsb isDigit s.
Definition hasOperator (s : jsstring) : bool := existsb isOperator s.

(** What the math pattern looks for: a digit, then one or more characters
    that are digits, operators, parentheses, dots or white space, then a
    digit. *)
Definition MathShape (s : jsstring) : Prop :=
  exists pre d1 mid d2 post,
    s = pre ++ d1 :: mid ++ d2 :: post
    /\ isDigit d1 = true /\ isDigit d2 = true
    /\ mid <> [] /\ forallb isMathChar mid = true.

Definition isSystem (m : AgentMessage) : bool :=
  match role m with System => true | _ => false end.

Definition isAssistant (m : AgentMessage) : bool :=
  match role m with Assistant => true | _ => false end.

Definition isUser (m : AgentMessage) : bool :=
  match role m with User => true | _ => false end.

Definition nonSystem (m : AgentMessage) : bool := negb (isSystem m).

(** The bullet of a message, and the summary that shows the messages
    [shown]. *)
Definition bulletOf (m : AgentMessage) : jsstring :=
  bulletLine (isAssistant m) (content m).

Definition summaryOf (shown : list AgentMessage) : jsstring :=
  match shown with
  | [] => nothingToSummarise
  | _ :: _ => join [newline] (summaryHeader :: List.map bulletOf shown)
  end.

(** The messages a summary shows: the non-system ones among the last 6
    messages. *)
Definition recentVisible (history : list AgentMessage) : list AgentMessage :=
  filter nonSystem (sliceLast 6 history).

(** In the specification's words: the last 6 non-system messages. *)
Definition lastSixNonSystem (history : list AgentMessage) : list AgentMessage :=
  sliceLast 6 (filter nonSystem history).

(** A text without a line break. *)
Definition noNewline (s : jsstring) : bool :=
  forallb (fun c => negb (c =? newline)) s.

(** The lines of a text. *)
Definition linesOf (text : jsstring) : list jsstring :=
  splitOn (fun c => c =? newline) text.

Definition say (r : AgentRole) (text : string) : AgentMessage :=
  {| role := r; content := lit text |}.

(** Six user turns with a system notice before the last one. *)
Definition noticedHistory : list AgentMessage :=
  [ say User "one"; say Assistant "two"; say User "three";
    say Assistant "four"; say User "five"; say System "notice";
    say User "six" ].

(** [a] is ranked ahead of [b]: a higher score, or the same score and an
    earlier place in the input. *)
Definition ranksBefore (a b : RankedTask) : Prop :=
  (score b < score a)%Z \/ (score a = score b /\ (index a < index b)%Z).

(** The text in which [pieces] are separated by the code units [seps]. *)
Fixpoint weave (pieces : list jsstring) (seps : list char) : jsstring :=
  match pieces, seps with
  | [], _ => []
  | p :: _, [] => p
  | p :: ps, c :: cs => p ++ c :: weave ps cs
  end.

(** Does [t] start with, or contain, the word [w], letter case aside? *)
Fixpoint startsWithCI (w t : jsstring) : bool :=
  match w, t with
  | [], _ => true
  | _ :: _, [] => false
  | x :: w', y :: t' => (canon y =? canon x) && startsWithCI w' t'
  end.

Fixpoint includesCI (w t : jsstring) : bool :=
  startsWithCI w t ||
  match t with
  | [] => false
  | _ :: t' => includesCI w t'
  end.

Definition mentionsAny (ws : list string) (t : jsstring) : bool :=
  existsb (fun w => includesCI (lit w) t) ws.

(** The scores in the specification's words. *)
Definition urgencyOf (t : jsstring) : Z :=
  if mentionsAny ["today"; "urgent"; "now"; "soon"; "asap"]%string t
  then 3 else 1.

Definition impactOf (t : jsstring) : Z :=
  if mentionsAny ["launch"; "client"; "revenue"; "milestone"; "deadline"]%string t
  then 3
  else if mentionsAny ["review"; "prep"; "draft"]%string t then 2
  else 1.

(** The three fixed messages of the expression evaluator. *)
Definition explanatory (out : jsstring) : Prop :=
  out = noExpressionMessage \/ out = malformedMessage \/ out = nonNumericMessage.

(** The finite number a value is, if it is one. *)
Definition finiteNumber (v : jsvalue) : option float :=
  match v with
  | VNumber x => if isFinite x then Some x else None
  | VOther => None
  end.

(** The most recent user message of a well-typed history. *)
Definition lastUser (history : list AgentMessage) : option AgentMessage :=
  find isUser (rev history).

(** The [messages] member of a request body, if it has one. *)
Definition messagesField (parsed : json) : option json :=
  match parsed with
  | JObject fields => lookup (lit "messages") fields
  | _ => None
  end.

Definition requestOf (history : list AgentMessage) : json :=
  JObject [(lit "messages", JArray (ofMessages history))].

(** The content of the reply to the text [userText] of intent [intent],
    in a well-typed history. *)
Definition contentOf {rt : Runtime} (intent : Intent)
    (history : list AgentMessage) (userText : jsstring) : jsstring :=
  match intent with
  | Math => calculateExpression userText
  | Plan => buildPlan userText
  | Brainstorm => brainstormIdeas userText
  | Summarize => summaryOf (recentVisible history)
  | Prioritize => prioritiseTasks userText
  | Insight =>
      match matchKnowledge userText with
      | Some advice => advice
      | None => reflectivePrompt
      end
  end.

(* ================================================================= *)
(** ** components/Chat.tsx: the conversation state *)

Definition SAMPLE_PROMPTS : list jsstring :=
  [ lit "Help me plan a focused 30-minute workout that alternates cardio and strength.";
    lit "I need three marketing ideas for a zero-waste coffee brand.";
    lit "Summarize our conversation so far in bullet points.";
    lit "Solve: If I invest $150 monthly at 5% annual interest, what's the balance after 3 years?" ].

(** A message of the conversation: an [AgentReply] of the client (a role, a
    content, optional steps and suggestions) with its identifier. *)
Record ConversationMessage : Type := {
  msgId : jsstring;
  msgRole : AgentRole;
  msgContent : jsstring;
  msgSteps : option (list AgentStep);
  msgSuggestions : option (list jsstring)
}.

(** The state of the [Chat] component: its three [useState] cells. *)
Record ChatState : Type := {
  messages : list ConversationMessage;
  input : jsstring;
  pending : bool
}.

(** The initial state; [newId] is the value of [createId()]. *)
Definition initialState (newId : jsstring) : ChatState :=
  {| messages :=
       [ {| msgId := newId;
            msgRole := Assistant;
            msgContent :=
              lit "Hi, I am Radius. I can break down your goals, crunch quick numbers, and suggest concrete next steps. What should we work on?";
            msgSteps := None;
            msgSuggestions :=
              Some [ lit "Plan my afternoon to finish two tasks";
                     lit "Draft a friendly follow-up email";
                     lit "Help me estimate a monthly budget" ] |} ];
     input := [];
     pending := false |}.

(** [roundedMessages]: the messages as the server reads them. *)
Definition roundedMessages (st : ChatState) : list AgentMessage :=
  List.map (fun m => {| role := msgRole m; content := msgContent m |})
           (messages st).

Definition userMessage (newId text : jsstring) : ConversationMessage :=
  {| msgId := newId; msgRole := User; msgContent := text;
     msgSteps := None; msgSuggestions := None |}.

(** [{ id: createId(), ...payload }] *)
Definition replyMessage (newId : jsstring) (payload : AgentReply)
  : ConversationMessage :=
  {| msgId := newId; msgRole := replyRole payload;
     msgContent := replyContent payload;
     msgSteps := Some (steps payload);
     msgSuggestions := Some (suggestions payload) |}.

Definition glitchMessage (newId : jsstring) : ConversationMessage :=
  {| msgId := newId; msgRole := Assistant;
     msgContent :=
       lit "I ran into a glitch while thinking. Try again in a moment or rephrase your request.";
     msgSteps := None; msgSuggestions := None |}.

(** [handleSubmit] up to the request: [None] when it returns at once (blank
    input, or a request in flight); otherwise the state with the user's
    message appended, the input cleared and [pending] set, and the messages
    of the request body. *)
Definition beginSubmit (newId : jsstring) (st : ChatState)
  : option (ChatState * list AgentMessage) :=
  match trim (input st) with
  | [] => None
  | (_ :: _) as text =>
      if pending st then None
      else Some ({| messages := messages st ++ [userMessage newId text];
                    input := [];
                    pending := true |},
                 roundedMessages st ++ [{| role := User; content := text |}])
  end.

(** [handleSubmit] from the outcome of the request on: [payload] is the
    parsed reply of an [ok] response, [None] any failure caught by the
    [catch] block. *)
Definition finishSubmit (newId : jsstring) (payload : option AgentReply)
    (st : ChatState) : ChatState :=
  {| messages :=
       messages st ++ [match payload with
                       | Some reply => replyMessage newId reply
                       | None => glitchMessage newId
                       end];
     input := input st;
     pending := false |}.

(** [handleSubmit] against a server [fetch]; [userId] and [replyId] are the
    values of the two [createId()] calls. *)
Definition handleSubmit (userId replyId : jsstring)
    (fetch : list AgentMessage -> option AgentReply) (st : ChatState)
  : ChatState :=
  match beginSubmit userId st with
  | None => st
  | Some (st', request) => finishSubmit replyId (fetch request) st'
  end.

Definition handlePromptSelect (prompt : jsstring) (st : ChatState) : ChatState :=
  if pending st then st
  else {| messages := messages st; input := prompt; pending := pending st |}.

(** The [onChange] handler of the text area. *)
Definition setInput (text : jsstring) (st : ChatState) : ChatState :=
  {| messages := messages st; input := text; pending := pending st |}.

(** The route as the server behind [fetch]: the body is the JSON text of
    [{ messages }], and only an [ok] response (status 200 to 299) has its
    payload read. *)
Definition serverFetch {rt : Runtime} (request : list AgentMessage)
  : option AgentReply :=
  let response := POST (Ok (requestOf request)) in
  if ((200 <=? status response) && (status response <=? 299))%Z
  then match body response with
       | ReplyBody reply => Some reply
       | ErrorBody _ => None
       end
  else None.

(** The component together with the request it awaits: [inFlight] is the
    body sent by the call of [handleSubmit] that is suspended at
    [await fetch], while the component goes on rendering [view]. *)
Record ChatSession : Type := {
  view : ChatState;
  inFlight : option (list AgentMessage)
}.

Definition startSession (firstId : jsstring) : ChatSession :=
  {| view := initialState firstId; inFlight := None |}.

(** What happens to the component: the user types, picks a sample prompt
    or submits the form; the request in flight is answered by the route,
    or fails on the way (the [catch] block).  Between [Submitted] and
    [Answered] or [Failed] the call of [handleSubmit] is suspended and the
    component renders [view] with [pending] set.  The text area, the
    submit button and the prompt buttons are [disabled] while [pending]
    holds; the handlers are modelled as written, so a run may deliver such
    an event all the same. *)
Inductive ChatEvent : Type :=
| Typed (text : jsstring)
| Picked (prompt : jsstring)
| Submitted (userId : jsstring)
| Answered (replyId : jsstring)
| Failed (replyId : jsstring).

Definition chatStep {rt : Runtime} (s : ChatSession) (e : ChatEvent)
  : ChatSession :=
  match e with
  | Typed text => {| view := setInput text (view s); inFlight := inFlight s |}
  | Picked prompt =>
      {| view := handlePromptSelect prompt (view s); inFlight := inFlight s |}
  | Submitted userId =>
      match beginSubmit userId (view s) with
      | None => s
      | Some (st, request) => {| view := st; inFlight := Some request |}
      end
  | Answered replyId =>
      match inFlight s with
      | None => s
      | Some request =>
          {| view := finishSubmit replyId (serverFetch request) (view s);
             inFlight := None |}
      end
  | Failed replyId =>
      match inFlight s with
      | None => s
      | Some _ =>
          {| view := finishSubmit replyId None (view s); inFlight := None |}
      end
  end.

Definition chatRun {rt : Runtime} (s : ChatSession) (events : list ChatEvent)
  : ChatSession :=
  fold_left chatStep events s.

(* ================================================================= *)
(** ** components/MessageBubble.tsx: the content of a bubble *)

(** What [formatContent] renders: a [<p>] or a [<ul>] of [<li>]. *)
Inductive Block : Type :=
| Paragraph (text : jsstring)
| BulletList (items : list jsstring).

Definition consChar (c : char) (pieces : list jsstring) : list jsstring :=
  match pieces with
  | [] => [[c]]
  | p :: ps => (c :: p) :: ps
  end.

(** [s.split(/\n{2,}/)]: the text is cut at every maximal run of two or more
    line feeds. [inRun] tells that such a run is being skipped. *)
Fixpoint splitBlankFrom (inRun : bool) (s : jsstring) : list jsstring :=
  match s with
  | [] => [[]]
  | c :: s' =>
      if c =? newline then
        if inRun then splitBlankFrom true s'
        else match s' with
             | d :: _ =>
                 if d =? newline then [] :: splitBlankFrom true s'
                 else consChar c (splitBlankFrom false s')
             | [] => consChar c (splitBlankFrom false s')
             end
      else consChar c (splitBlankFrom false s')
  end.

Definition splitBlank (s : jsstring) : list jsstring := splitBlankFrom false s.

(** [t.startsWith(w)] and [t.includes(w)] *)
Fixpoint startsWith (w t : jsstring) : bool :=
  match w, t with
  | [], _ => true
  | _ :: _, [] => false
  | x :: w', y :: t' => (y =? x) && startsWith w' t'
  end.

Fixpoint includes (w t : jsstring) : bool :=
  startsWith w t ||
  match t with
  | [] => false
  | _ :: t' => includes w t'
  end.

Definition dash : char := 45.

Fixpoint dropDashes (s : jsstring) : jsstring :=
  match s with
  | [] => []
  | c :: s' => if c =? dash then dropDashes s' else s
  end.

(** [line.replace(/^-+\s*/, "")] *)
Definition stripBullet (line : jsstring) : jsstring :=
  match line with
  | c :: _ => if c =? dash then trimStart (dropDashes line) else line
  | [] => []
  end.

Definition isEmpty (s : jsstring) : bool :=
  match s with [] => true | _ :: _ => false end.

Definition formatParagraph (paragraph : jsstring) : Block :=
  let isList :=
    startsWith (lit "- ") (trim paragraph)
    || includes (newline :: lit "- ") paragraph in
  if isList
  then BulletList
         (filter (fun item => negb (isEmpty item))
                 (List.map (fun line => trim (stripBullet line))
                           (linesOf paragraph)))
  else Paragraph paragraph.

Definition formatContent (content : jsstring) : list Block :=
  List.map formatParagraph (splitBlank (trim content)).

(* ================================================================= *)
(** ** Further vocabulary *)

(** Two texts that differ in the case of ASCII letters only. *)
Definition sameLetters (s t : jsstring) : Prop :=
  List.map canon s = List.map canon t.

(** Every character class of the pattern ignores the case of ASCII letters. *)
Fixpoint caseBlind (r : regex) : Prop :=
  match r with
  | Fail | Eps => True
  | Chr p => forall c, p (canon c) = p c
  | Cat r1 r2 | Alt r1 r2 => caseBlind r1 /\ caseBlind r2
  | Star r1 => caseBlind r1
  end.

(** The word [order] and, later on the same line, the word [tasks]. *)
Definition OrderThenTasks (t : jsstring) : Prop :=
  exists pre a mid b post,
    t = pre ++ a ++ mid ++ b ++ post
    /\ sameLetters a (lit "order")
    /\ forallb dot mid = true
    /\ sameLetters b (lit "tasks").

(** A text without surrounding white space. *)
Definition isTrimmed (s : jsstring) : bool :=
  match s with
  | [] => true
  | c :: _ => negb (isSpace c) && negb (isSpace (last s c))
  end.

(** A character that is neither white space nor a task separator. *)
Definition isSolid (c : char) : bool :=
  negb (isSpace c) && negb (isTaskSeparator c).

(** The roles of a conversation take turns, the assistant first. *)
Fixpoint takesTurns (assistantNext : bool) (roles : list AgentRole) : bool :=
  match roles with
  | [] => true
  | Assistant :: rest => assistantNext && takesTurns false rest
  | User :: rest => negb assistantNext && takesTurns true rest
  | System :: _ => false
  end.

(** The vocabularies of the keyword intents, without the redundant
    alternatives ([ideas] has [idea] in it, [names] has [name]). *)
Definition planWords : list string :=
  ["plan"; "schedule"; "roadmap"; "steps"; "strategy"]%string.

Definition ideaWords : list string :=
  ["idea"; "brainstorm"; "creative"; "name"]%string.

Definition summaryWords : list string :=
  ["summarise"; "summarize"; "recap"; "tl;dr"]%string.

Definition rankingWords : list string :=
  ["prioritise"; "prioritize"; "ranking"; "what to do first"]%string.

(** No two texts of the list are the same. *)
Fixpoint allDistinct (l : list jsstring) : bool :=
  match l with
  | [] => true
  | x :: rest => negb (existsb (str_eqb x) rest) && allDistinct rest
  end.

(** The titles of the step that reports the tool or method used. *)
Definition methodTitles : list jsstring :=
  [lit "Tool"; lit "Method"; lit "Knowledge"; lit "Fallback"].

(** The advice of the [n]-th entry of the knowledge base. *)
Definition adviceOf (n : nat) : option jsstring :=
  option_map response (nth_error KNOWLEDGE_BASE n).

(** A message the user sent: a non-empty text without surrounding white
    space. *)
Definition isUserTurn (m : ConversationMessage) : bool :=
  match msgRole m with
  | User => negb (isEmpty (msgContent m)) && isTrimmed (msgContent m)
  | _ => false
  end.

(** A reply of the dispatcher to a user message: three steps and three
    suggestions. *)
Definition isServerReply (m : ConversationMessage) : bool :=
  match msgRole m, msgSteps m, msgSuggestions m with
  | Assistant, Some st, Some sg =>
      (List.length st =? 3)%nat && (List.length sg =? 3)%nat
  | _, _, _ => false
  end.

(** The message shown when the request failed. *)
Definition isGlitch (m : ConversationMessage) : bool :=
  match msgRole m, msgSteps m with
  | Assistant, None => str_eqb (msgContent m) (msgContent (glitchMessage []))
  | _, _ => false
  end.

Definition isAnswer (m : ConversationMessage) : bool :=
  isServerReply m || isGlitch m.

(** A conversation made of complete exchanges: a user message, then what
    came back for it, which [reply] accepts. *)
Fixpoint exchangesBy (reply : ConversationMessage -> bool)
    (l : list ConversationMessage) : bool :=
  match l with
  | [] => true
  | u :: rest =>
      match rest with
      | [] => false
      | a :: rest' => isUserTurn u && reply a && exchangesBy reply rest'
      end
  end.

Definition noFailure (e : ChatEvent) : bool :=
  match e with
  | Failed _ => false
  | _ => true
  end.

(** The shape of a session over the messages [base]: complete exchanges
    [added], and the user's message on top while a request is in flight. *)
Definition SessionShape (reply : ConversationMessage -> bool)
    (base : list ConversationMessage) (s : ChatSession)
    (added : list ConversationMessage) : Prop :=
  exchangesBy reply added = true
  /\ match inFlight s with
     | None =>
         pending (view s) = false
         /\ messages (view s) = base ++ added
     | Some request =>
         pending (view s) = true
         /\ request = roundedMessages (view s)
         /\ exists u, isUserTurn u = true
                      /\ messages (view s) = base ++ added ++ [u]
     end.

(** A text without a blank line, that is without two line feeds in a
    row. *)
Definition noBlankLine (s : jsstring) : bool :=
  negb (includes [newline; newline] s).

(** The speaker and the text of a summary bullet, as a list item shows
    them. *)
Definition spokenLine (m : AgentMessage) : jsstring :=
  lit (if isAssistant m then "Radius" else "You") ++ lit ": "
  ++ trim (collapseSpaces (content m)).

Definition summaryItem (m : AgentMessage) : jsstring := trim (spokenLine m).

(* ================================================================= *)
(** * Properties *)

(* ================================================================= *)
(** ** The matcher decides the patterns *)

Lemma str_eqb_eq (a b : jsstring) : str_eqb a b = true <-> a = b.
Proof.
  revert b; induction a as [|x a IH]; intros [|y b]; simpl; split;
    try congruence; try reflexivity.
  - intros H. apply andb_true_iff in H as [Hx Hab].
    apply N.eqb_eq in Hx. apply IH in Hab. congruence.
  - intros H. injection H as -> ->.
    apply andb_true_iff. split; [apply N.eqb_refl | now apply IH].
Qed.

Lemma Matches_Cat_inv (r1 r2 : regex) (s : jsstring) :
  Matches (Cat r1 r2) s ->
  exists s1 s2, s = s1 ++ s2 /\ Matches r1 s1 /\ Matches r2 s2.
Proof. intros H. inversion H; subst. eauto. Qed.

Lemma Matches_Alt_inv (r1 r2 : regex) (s : jsstring) :
  Matches (Alt r1 r2) s -> Matches r1 s \/ Matches r2 s.
Proof. intros H. inversion H; subst; auto. Qed.

Lemma nullable_spec (r : regex) : nullable r = true <-> Matches r [].
Proof.
  induction r as [| |p|r1 IH1 r2 IH2|r1 IH1 r2 IH2|r IH]; simpl.
  - split; [discriminate | intros H; inversion H].
  - split; [intros _; constructor | reflexivity].
  - split; [discriminate | intros H; inversion H].
  - rewrite andb_true_iff, IH1, IH2. split.
    + intros [H1 H2]. apply (MCat H1 H2).
    + intros H. apply Matches_Cat_inv in H as (s1 & s2 & E & H1 & H2).
      symmetry in E. apply app_eq_nil in E as [-> ->]. now split.
  - rewrite orb_true_iff, IH1, IH2. split.
    + intros [H|H]; [now apply MAltL | now apply MAltR].
    + apply Matches_Alt_inv.
  - split; [intros _; constructor | reflexivity].
Qed.

Lemma deriv_sound (c : char) (r : regex) :
  forall s, Matches (deriv c r) s -> Matches r (c :: s).
Proof.
  induction r as [| |p|r1 IH1 r2 IH2|r1 IH1 r2 IH2|r IH]; simpl; intros s H.
  - inversion H.
  - inversion H.
  - destruct (p c) eqn:Hp; inversion H; subst. now constructor.
  - assert (HC : forall w, Matches (Cat (deriv c r1) r2) w ->
                           Matches (Cat r1 r2) (c :: w)).
    { intros w Hw. apply Matches_Cat_inv in Hw as (s1 & s2 & -> & H1 & H2).
      apply (MCat (IH1 _ H1) H2). }
    destruct (nullable r1) eqn:Hn; [|now apply HC].
    apply Matches_Alt_inv in H as [H|H]; [now apply HC|].
    apply nullable_spec in Hn. apply (MCat (s1 := []) Hn (IH2 _ H)).
  - apply Matches_Alt_inv in H as [H|H]; [apply MAltL | apply MAltR]; auto.
  - apply Matches_Cat_inv in H as (s1 & s2 & -> & H1 & H2).
    apply (MStarCons (IH _ H1) H2).
Qed.

Lemma deriv_complete (c : char) (r : regex) (w : jsstring) :
  Matches r w -> forall s, w = c :: s -> Matches (deriv c r) s.
Proof.
  induction 1 as [|p x Hp|r1 r2 s1 s2 H1 IH1 H2 IH2|r1 r2 w H IH|r1 r2 w H IH
                 |r|r s1 s2 H1 IH1 H2 IH2]; intros s E; simpl.
  - discriminate.
  - injection E as -> <-. rewrite Hp. constructor.
  - destruct s1 as [|y s1'].
    + simpl in E. apply nullable_spec in H1 as Hn. rewrite Hn.
      apply MAltR. now apply IH2.
    + simpl in E. injection E as -> <-.
      assert (Hc : Matches (Cat (deriv c r1) r2) (s1' ++ s2))
        by (apply MCat; [now apply IH1 | assumption]).
      destruct (nullable r1); [now apply MAltL | assumption].
  - apply MAltL. now apply IH.
  - apply MAltR. now apply IH.
  - discriminate.
  - destruct s1 as [|y s1'].
    + simpl in E. now apply IH2.
    + simpl in E. injection E as -> <-.
      apply MCat; [now apply IH1 | assumption].
Qed.

Lemma deriv_spec (c : char) (r : regex) (s : jsstring) :
  Matches (deriv c r) s <-> Matches r (c :: s).
Proof.
  split; [apply deriv_sound | intros H; now apply (deriv_complete H)].
Qed.

Lemma matchPrefix_spec (s : jsstring) :
  forall r, matchPrefix r s = true <->
            exists m rest, s = m ++ rest /\ Matches r m.
Proof.
  induction s as [|c s IH]; intros r; simpl.
  - rewrite orb_false_r, nullable_spec. split.
    + intros H. now exists [], [].
    + intros (m & rest & E & H). symmetry in E.
      apply app_eq_nil in E as [-> _]. assumption.
  - rewrite orb_true_iff, nullable_spec, IH. split.
    + intros [H | (m & rest & -> & H)].
      * now exists [], (c :: s).
      * exists (c :: m), rest. split; [reflexivity | now apply deriv_spec].
    + intros (m & rest & E & H). destruct m as [|x m].
      * now left.
      * right. simpl in E. injection E as <- ->.
        exists m, rest. split; [reflexivity | now apply deriv_spec].
Qed.

(** [test r s] holds exactly when some substring of [s] matches [r]. *)
Lemma test_spec (r : regex) (s : jsstring) :
  test r s = true <->
  exists pre m post, s = pre ++ m ++ post /\ Matches r m.
Proof.
  induction s as [|c s IH]; cbn [test].
  - rewrite orb_false_r, matchPrefix_spec. split.
    + intros (m & rest & E & H). now exists [], m, rest.
    + intros (pre & m & post & E & H). symmetry in E.
      apply app_eq_nil in E as [-> E]. now exists m, post.
  - rewrite orb_true_iff, matchPrefix_spec, IH. split.
    + intros [(m & rest & E & H) | (pre & m & post & -> & H)].
      * now exists [], m, rest.
      * now exists (c :: pre), m, post.
    + intros (pre & m & post & E & H). destruct pre as [|x pre].
      * left. now exists m, post.
      * right. simpl in E. injection E as <- ->. now exists pre, m, post.
Qed.

Lemma Matches_Chr (p : char -> bool) (s : jsstring) :
  Matches (Chr p) s <-> exists c, s = [c] /\ p c = true.
Proof.
  split.
  - intros H. inversion H; subst. eauto.
  - intros (c & -> & H). now constructor.
Qed.

Lemma Matches_Star_Chr (p : char -> bool) (s : jsstring) :
  Matches (Star (Chr p)) s <-> forallb p s = true.
Proof.
  split.
  - intros H. remember (Star (Chr p)) as r eqn:Er.
    induction H as [| | | | | |r' s1 s2 H1 _ H2 IH2]; try discriminate.
    + reflexivity.
    + injection Er as ->. inversion H1; subst. simpl.
      apply andb_true_iff. split; [assumption | now apply IH2].
  - induction s as [|c s IH]; simpl; intros H.
    + constructor.
    + apply andb_true_iff in H as [Hc Hs].
      apply (MStarCons (s1 := [c])); [now constructor | now apply IH].
Qed.

(* ================================================================= *)
(** ** The intent classifier *)

Lemma Matches_Eps_inv (s : jsstring) : Matches Eps s -> s = [].
Proof. intros H. now inversion H. Qed.

Lemma Matches_mathPattern (m : jsstring) :
  Matches mathPattern m <->
  exists d1 mid d2,
    m = d1 :: mid ++ [d2]
    /\ isDigit d1 = true /\ isDigit d2 = true
    /\ mid <> [] /\ forallb isMathChar mid = true.
Proof.
  unfold mathPattern, seqs, Plus; simpl. split.
  - intros H.
    apply Matches_Cat_inv in H as (a & w & -> & Ha & H).
    apply Matches_Cat_inv in H as (b & w' & -> & Hb & H).
    apply Matches_Cat_inv in Hb as (x & rest & -> & Hx & Hrest).
    apply Matches_Cat_inv in H as (d & e & -> & Hd & He).
    apply Matches_Chr in Ha as (d1 & -> & Hd1).
    apply Matches_Chr in Hx as (x1 & -> & Hx1).
    apply Matches_Chr in Hd as (d2 & -> & Hd2).
    apply Matches_Eps_inv in He as ->.
    apply Matches_Star_Chr in Hrest.
    exists d1, (x1 :: rest), d2. simpl. repeat split; auto.
    + discriminate.
    + now rewrite Hx1.
  - intros (d1 & mid & d2 & -> & Hd1 & Hd2 & Hne & Hmid).
    destruct mid as [|x rest]; [congruence|].
    simpl in Hmid. apply andb_true_iff in Hmid as [Hx Hrest].
    apply (MCat (s1 := [d1])); [now constructor|].
    apply (MCat (s1 := x :: rest) (s2 := [d2])).
    + apply (MCat (s1 := [x])); [now constructor | now apply Matches_Star_Chr].
    + apply (MCat (s1 := [d2]) (s2 := [])); now constructor.
Qed.

Lemma test_mathPattern (s : jsstring) :
  test mathPattern s = true <-> MathShape s.
Proof.
  rewrite test_spec. unfold MathShape. split.
  - intros (pre & m & post & -> & H).
    apply Matches_mathPattern in H as (d1 & mid & d2 & -> & H).
    exists pre, d1, mid, d2, post. split; [|exact H].
    simpl. now rewrite <- app_assoc.
  - intros (pre & d1 & mid & d2 & post & -> & H).
    exists pre, (d1 :: mid ++ [d2]), post. split.
    + simpl. now rewrite <- app_assoc.
    + apply Matches_mathPattern. now exists d1, mid, d2.
Qed.

Lemma classifyIntent_math (s : jsstring) :
  classifyIntent s = Math <-> test mathPattern s = true.
Proof.
  unfold classifyIntent. destruct (test mathPattern s); [tauto|].
  split; [|discriminate].
  repeat match goal with |- context [if ?b then _ else _] => destruct b end;
    discriminate.
Qed.

Lemma MathShape_hasDigit (s : jsstring) : MathShape s -> hasDigit s = true.
Proof.
  intros (pre & d1 & mid & d2 & post & -> & Hd1 & _).
  unfold hasDigit. rewrite existsb_app. simpl. rewrite Hd1.
  apply orb_true_r.
Qed.

(** C1 (as amended): the classifier answers [math] exactly for a text that
    contains a digit, then at least one character that is a digit, an
    operator, a parenthesis, a dot or white space, then a digit; a text
    without any digit is never [math]. *)
Theorem classifyIntent_math_iff (s : jsstring) :
  (classifyIntent s = Math <-> MathShape s)
  /\ (hasDigit s = false -> classifyIntent s <> Math).
Proof.
  split.
  - rewrite classifyIntent_math. apply test_mathPattern.
  - intros Hno Hm. apply classifyIntent_math, test_mathPattern in Hm.
    apply MathShape_hasDigit in Hm. congruence.
Qed.

(** C1 (as stated) fails: a text with digits and no operator character, a
    single number, is classified [math]. *)
Lemma classifyIntent_plain_number_is_math :
  hasDigit (lit "I have 100 apples") = true
  /\ hasOperator (lit "I have 100 apples") = false
  /\ classifyIntent (lit "I have 100 apples") = Math.
Proof. repeat split; vm_compute; reflexivity. Qed.

Lemma classifyIntent_math_iff_example : MathShape (lit "What is 2+2?").
Proof.
  apply (proj1 (proj1 (classifyIntent_math_iff (lit "What is 2+2?")))).
  reflexivity.
Defined.

(* ================================================================= *)
(** ** Lists and lines *)

Lemma sliceLast_suffix {A : Type} (n : nat) (l : list A) :
  exists older, l = older ++ sliceLast n l
                /\ List.length (sliceLast n l) = Nat.min n (List.length l).
Proof.
  exists (firstn (List.length l - n) l). unfold sliceLast. split.
  - symmetry. apply firstn_skipn.
  - rewrite length_skipn. lia.
Qed.

Lemma sliceLast_map {A B : Type} (f : A -> B) (n : nat) (l : list A) :
  sliceLast n (List.map f l) = List.map f (sliceLast n l).
Proof. unfold sliceLast. now rewrite length_map, skipn_map. Qed.

Lemma filter_length_le {A : Type} (p : A -> bool) (l : list A) :
  (List.length (filter p l) <= List.length l)%nat.
Proof.
  induction l as [|x l IH]; simpl; [lia|]. destruct (p x); simpl; lia.
Qed.

Lemma noNewline_app (a b : jsstring) :
  noNewline (a ++ b) = noNewline a && noNewline b.
Proof. apply forallb_app. Qed.

Lemma noNewline_rev (s : jsstring) : noNewline s = true -> noNewline (rev s) = true.
Proof.
  unfold noNewline. rewrite !forallb_forall. intros H c Hc.
  apply H. now apply in_rev.
Qed.

Lemma noNewline_trimStart (s : jsstring) :
  noNewline s = true -> noNewline (trimStart s) = true.
Proof.
  induction s as [|c s IH]; simpl; [reflexivity|]. intros H.
  destruct (isSpace c); [|exact H].
  apply andb_true_iff in H as [_ H]. now apply IH.
Qed.

Lemma noNewline_trim (s : jsstring) :
  noNewline s = true -> noNewline (trim s) = true.
Proof.
  intros H. unfold trim, trimEnd.
  now apply noNewline_rev, noNewline_trimStart, noNewline_rev, noNewline_trimStart.
Qed.

Lemma isSpace_not_newline (c : char) : isSpace c = false -> (c =? newline) = false.
Proof.
  intros H. destruct (c =? newline) eqn:E; [|reflexivity].
  apply N.eqb_eq in E. subst c. discriminate H.
Qed.

Lemma noNewline_collapseFrom (s : jsstring) :
  forall inRun, noNewline (collapseFrom inRun s) = true.
Proof.
  induction s as [|c s IH]; intros inRun; simpl; [reflexivity|].
  destruct (isSpace c) eqn:Hc.
  - destruct inRun; simpl; apply IH.
  - simpl. rewrite (isSpace_not_newline _ Hc). apply IH.
Qed.

Lemma splitOn_piece (sep : char -> bool) (p : jsstring) :
  forallb (fun c => negb (sep c)) p = true -> splitOn sep p = [p].
Proof.
  induction p as [|c p IH]; simpl; [reflexivity|]. intros H.
  apply andb_true_iff in H as [Hc Hp]. apply negb_true_iff in Hc.
  now rewrite Hc, (IH Hp).
Qed.

Lemma splitOn_piece_sep (sep : char -> bool) (p rest : jsstring) (c : char) :
  forallb (fun c => negb (sep c)) p = true -> sep c = true ->
  splitOn sep (p ++ c :: rest) = p :: splitOn sep rest.
Proof.
  intros Hp Hc. induction p as [|x p IH]; simpl.
  - now rewrite Hc.
  - simpl in Hp. apply andb_true_iff in Hp as [Hx Hp].
    apply negb_true_iff in Hx. now rewrite Hx, (IH Hp).
Qed.

(** A text joined from lines without line breaks splits back into them. *)
Lemma linesOf_join (parts : list jsstring) :
  parts <> [] -> forallb noNewline parts = true ->
  linesOf (join [newline] parts) = parts.
Proof.
  unfold linesOf. induction parts as [|p rest IH]; [congruence|].
  intros _ H. simpl in H. apply andb_true_iff in H as [Hp Hrest].
  destruct rest as [|q rest].
  - simpl. now apply splitOn_piece.
  - change (join [newline] (p :: q :: rest))
      with (p ++ newline :: join [newline] (q :: rest)).
    rewrite splitOn_piece_sep; [|exact Hp|reflexivity].
    f_equal. apply IH; [discriminate | exact Hrest].
Qed.

(* ================================================================= *)
(** ** The summary *)

Lemma getProp_role (m : AgentMessage) :
  getProp (ofMessage m) "role" = Ok (Some (JString (lit (roleName (role m))))).
Proof. reflexivity. Qed.

Lemma getProp_content (m : AgentMessage) :
  getProp (ofMessage m) "content" = Ok (Some (JString (content m))).
Proof. reflexivity. Qed.

Lemma isString_system (m : AgentMessage) :
  isString "system" (Some (JString (lit (roleName (role m))))) = isSystem m.
Proof. unfold isSystem. now destruct (role m). Qed.

Lemma isString_assistant (m : AgentMessage) :
  isString "assistant" (Some (JString (lit (roleName (role m))))) = isAssistant m.
Proof. unfold isAssistant. now destruct (role m). Qed.

Lemma isString_user (m : AgentMessage) :
  isString "user" (Some (JString (lit (roleName (role m))))) = isUser m.
Proof. unfold isUser. now destruct (role m). Qed.

Lemma filterM_nonSystem (l : list AgentMessage) :
  filterM (fun item => r <- getProp item "role" ;;
                       Ok (negb (isString "system" r)))
          (ofMessages l)
  = Ok (ofMessages (filter nonSystem l)).
Proof.
  induction l as [|m l IH]; [reflexivity|].
  cbn [ofMessages List.map filterM]. fold (ofMessages l).
  rewrite getProp_role. cbn [bind]. rewrite isString_system, IH. cbn [bind].
  cbn [filter]. unfold nonSystem. destruct (isSystem m); reflexivity.
Qed.

Lemma mapM_bullets (l : list AgentMessage) :
  mapM (fun item => r <- getProp item "role" ;;
                    c <- getProp item "content" ;;
                    text <- stringReceiver c ;;
                    Ok (bulletLine (isString "assistant" r) text))
       (ofMessages l)
  = Ok (List.map bulletOf l).
Proof.
  induction l as [|m l IH]; [reflexivity|].
  cbn [ofMessages List.map mapM]. fold (ofMessages l).
  rewrite getProp_role. cbn [bind]. rewrite getProp_content. cbn [bind stringReceiver].
  now rewrite isString_assistant, IH.
Qed.

Lemma summarizeConversation_typed (history : list AgentMessage) :
  summarizeConversation (ofMessages history)
  = Ok (summaryOf (recentVisible history)).
Proof.
  unfold summarizeConversation, ofMessages. rewrite sliceLast_map.
  fold (ofMessages (sliceLast 6 history)). rewrite filterM_nonSystem.
  cbn [bind]. fold (recentVisible history).
  destruct (recentVisible history) as [|m shown] eqn:E; [reflexivity|].
  cbn [ofMessages List.map]. fold (ofMessages shown).
  change (ofMessage m :: ofMessages shown) with (ofMessages (m :: shown)).
  now rewrite mapM_bullets.
Qed.

Lemma noNewline_bulletOf (m : AgentMessage) : noNewline (bulletOf m) = true.
Proof.
  unfold bulletOf, bulletLine. rewrite !noNewline_app.
  rewrite noNewline_trim by apply noNewline_collapseFrom.
  destruct (isAssistant m); reflexivity.
Qed.

Lemma recentVisible_none (history : list AgentMessage) :
  filter nonSystem history = [] -> recentVisible history = [].
Proof.
  intros H. unfold recentVisible.
  destruct (sliceLast_suffix 6 history) as (older & E & _).
  rewrite E, filter_app in H. now apply app_eq_nil in H as [_ H].
Qed.

(** C2 (as amended): the summary shows the non-system messages among the
    last 6 messages of the history, oldest first, one bullet line each: at
    most 6 lines, and the fixed text when there is none to show, as when
    the history has no non-system message. *)
Theorem summarizeConversation_recent (history : list AgentMessage) :
  summarizeConversation (ofMessages history)
  = Ok (summaryOf (recentVisible history))
  /\ (exists older, history = older ++ sliceLast 6 history
        /\ List.length (sliceLast 6 history) = Nat.min 6 (List.length history))
  /\ (List.length (recentVisible history) <= 6)%nat
  /\ (recentVisible history <> [] ->
      linesOf (summaryOf (recentVisible history))
      = summaryHeader :: List.map bulletOf (recentVisible history))
  /\ (recentVisible history = [] ->
      summarizeConversation (ofMessages history) = Ok nothingToSummarise)
  /\ (filter nonSystem history = [] -> recentVisible history = []).
Proof.
  split; [apply summarizeConversation_typed|].
  split; [apply sliceLast_suffix|].
  split.
  { unfold recentVisible.
    destruct (sliceLast_suffix 6 history) as (_ & _ & L).
    pose proof (filter_length_le nonSystem (sliceLast 6 history)). lia. }
  split.
  { intros Hne. destruct (recentVisible history) as [|m shown]; [congruence|].
    unfold summaryOf. apply linesOf_join; [discriminate|].
    cbn [forallb]. apply andb_true_iff. split; [reflexivity|].
    apply forallb_forall. intros b Hb. apply in_map_iff in Hb as (x & <- & _).
    apply noNewline_bulletOf. }
  split.
  { intros E. rewrite summarizeConversation_typed. now rewrite E. }
  apply recentVisible_none.
Qed.

(** C2 (as stated) fails: with six non-system messages and a system message
    among the last six, five bullets are rendered, not the last six
    non-system messages. *)
Lemma summarizeConversation_five_bullets :
  List.length (filter nonSystem noticedHistory) = 6%nat
  /\ summarizeConversation (ofMessages noticedHistory)
     = Ok (summaryOf [ say Assistant "two"; say User "three";
                       say Assistant "four"; say User "five"; say User "six" ])
  /\ List.length (lastSixNonSystem noticedHistory) = 6%nat
  /\ summarizeConversation (ofMessages noticedHistory)
     <> Ok (summaryOf (lastSixNonSystem noticedHistory)).
Proof.
  split; [reflexivity|]. split; [vm_compute; reflexivity|].
  split; [reflexivity|]. vm_compute. discriminate.
Qed.

Lemma summarizeConversation_recent_example :
  linesOf (summaryOf (recentVisible noticedHistory))
  = summaryHeader :: List.map bulletOf (recentVisible noticedHistory).
Proof.
  apply (proj1 (proj2 (proj2 (proj2
           (summarizeConversation_recent noticedHistory))))).
  vm_compute. discriminate.
Defined.

(* ================================================================= *)
(** ** Sorting with a comparator *)

Section Sorting.

Variable A : Type.
Variable cmp : A -> A -> Z.

Hypothesis cmp_total : forall x y, (0 < cmp x y)%Z -> (cmp y x <= 0)%Z.
Hypothesis cmp_trans :
  forall x y z, (cmp x y <= 0)%Z -> (cmp y z <= 0)%Z -> (cmp x z <= 0)%Z.

Lemma insertBy_perm (x : A) (l : list A) :
  Permutation (insertBy cmp x l) (x :: l).
Proof.
  induction l as [|y l IH]; simpl; [reflexivity|].
  destruct (cmp x y <=? 0)%Z; [reflexivity|].
  rewrite IH. apply perm_swap.
Qed.

Lemma sortBy_perm (l : list A) : Permutation (sortBy cmp l) l.
Proof.
  induction l as [|x l IH]; simpl; [reflexivity|].
  rewrite insertBy_perm. now constructor.
Qed.

Lemma insertBy_sorted (x : A) (l : list A) :
  StronglySorted (cmpBefore cmp) l -> StronglySorted (cmpBefore cmp) (insertBy cmp x l).
Proof.
  induction 1 as [|y l Hs IH Hy]; simpl.
  - constructor; constructor.
  - destruct (Z.leb_spec (cmp x y) 0) as [Hle|Hgt].
    + constructor; [now constructor|].
      constructor; [exact Hle|].
      eapply Forall_impl; [|exact Hy]. intros z Hz. now apply cmp_trans with y.
    + constructor; [exact IH|].
      apply (Permutation_Forall (Permutation_sym (insertBy_perm x l))).
      constructor; [now apply cmp_total | exact Hy].
Qed.

Lemma sortBy_sorted (l : list A) : StronglySorted (cmpBefore cmp) (sortBy cmp l).
Proof.
  induction l as [|x l IH]; simpl; [constructor | now apply insertBy_sorted].
Qed.

End Sorting.

(* ================================================================= *)
(** ** The ranking *)

Lemma compareRanked_before (a b : RankedTask) :
  (compareRanked a b <= 0)%Z <->
  (score b < score a)%Z \/ (score a = score b /\ (index a <= index b)%Z).
Proof.
  unfold compareRanked. destruct (Z.eqb_spec (score b - score a) 0); lia.
Qed.

Lemma compareRanked_total (a b : RankedTask) :
  (0 < compareRanked a b)%Z -> (compareRanked b a <= 0)%Z.
Proof.
  rewrite compareRanked_before. unfold compareRanked.
  destruct (Z.eqb_spec (score b - score a) 0); lia.
Qed.

Lemma compareRanked_trans (a b c : RankedTask) :
  (compareRanked a b <= 0)%Z -> (compareRanked b c <= 0)%Z ->
  (compareRanked a c <= 0)%Z.
Proof. rewrite !compareRanked_before. lia. Qed.

Lemma mapiFrom_index_ge (lines : list jsstring) :
  forall i, Forall (fun r => (i <= index r)%Z) (mapiFrom rankTask i lines).
Proof.
  induction lines as [|t lines IH]; intros i; simpl; constructor.
  - simpl. lia.
  - eapply Forall_impl; [|apply (IH (i + 1)%Z)]. simpl. intros r Hr. lia.
Qed.

Lemma mapiFrom_index_NoDup (lines : list jsstring) :
  forall i, NoDup (List.map index (mapiFrom rankTask i lines)).
Proof.
  induction lines as [|t lines IH]; intros i; simpl; constructor.
  - intros Hin. apply in_map_iff in Hin as (r & Hr & Hin).
    pose proof (mapiFrom_index_ge lines (i + 1)%Z) as Hge.
    rewrite Forall_forall in Hge. apply Hge in Hin. lia.
  - apply IH.
Qed.

Lemma mapiFrom_nth {A B : Type} (f : A -> Z -> B) (l : list A) :
  forall i n, nth_error (mapiFrom f i l) n
              = option_map (fun x => f x (i + Z.of_nat n)%Z) (nth_error l n).
Proof.
  induction l as [|x l IH]; intros i [|n]; simpl; try reflexivity.
  - now rewrite Z.add_0_r.
  - rewrite IH. destruct (nth_error l n); simpl; [|reflexivity].
    do 2 f_equal. lia.
Qed.

Lemma strict_ranking (l : list RankedTask) :
  StronglySorted (cmpBefore compareRanked) l ->
  NoDup (List.map index l) ->
  StronglySorted ranksBefore l.
Proof.
  induction 1 as [|a l Hs IH Ha]; intros Hnd; constructor.
  - apply IH. now inversion Hnd.
  - rewrite Forall_forall in *. intros b Hb.
    specialize (Ha b Hb). apply compareRanked_before in Ha.
    assert (index a <> index b).
    { intros E. inversion Hnd as [|? ? Hnotin _]; subst.
      apply Hnotin. rewrite E. now apply in_map. }
    unfold ranksBefore. lia.
Qed.

Lemma rankedTasks_perm (lines : list jsstring) :
  Permutation (rankedTasks lines) (mapi rankTask lines).
Proof. apply sortBy_perm. Qed.

Lemma rankedTasks_sorted (lines : list jsstring) :
  StronglySorted ranksBefore (rankedTasks lines).
Proof.
  apply strict_ranking.
  - apply sortBy_sorted; [apply compareRanked_total | apply compareRanked_trans].
  - apply (Permutation_NoDup (Permutation_sym (Permutation_map index (rankedTasks_perm lines)))).
    apply mapiFrom_index_NoDup.
Qed.

(** C3: the ranking is a rearrangement of the candidate tasks, each with its
    place in the input, in which every task stands before the tasks of a
    lower score and before the later tasks of the same score; for
    [Draft email] and [Launch campaign today] the second comes first, 9
    against 4. *)
Theorem prioritiseTasks_ranking :
  (forall input : jsstring,
     taskLines input <> [] ->
     prioritiseTasks input
     = join [newline] (mapi renderRanked (rankedTasks (taskLines input)))
     /\ Permutation (rankedTasks (taskLines input))
                    (mapi rankTask (taskLines input))
     /\ (forall n t, nth_error (taskLines input) n = Some t ->
                     nth_error (mapi rankTask (taskLines input)) n
                     = Some (rankTask t (Z.of_nat n)))
     /\ StronglySorted ranksBefore (rankedTasks (taskLines input)))
  /\ rankedTasks [lit "Draft email"; lit "Launch campaign today"]
     = [ {| task := lit "Launch campaign today"; score := 9; index := 1 |};
         {| task := lit "Draft email"; score := 4; index := 0 |} ]
  /\ prioritiseTasks (lit "Draft email, Launch campaign today")
     = lit "1. Launch campaign today " ++ [emdash] ++ lit " priority score 9"
       ++ [newline]
       ++ lit "2. Draft email " ++ [emdash] ++ lit " priority score 4".
Proof.
  split; [|split; vm_compute; reflexivity].
  intros input Hne. repeat split.
  - unfold prioritiseTasks. destruct (taskLines input); [congruence | reflexivity].
  - apply rankedTasks_perm.
  - intros n t Hn. unfold mapi. now rewrite mapiFrom_nth, Hn.
  - apply rankedTasks_sorted.
Qed.

Lemma prioritiseTasks_ranking_example :
  StronglySorted ranksBefore
    (rankedTasks (taskLines (lit "Draft email, Launch campaign today"))).
Proof.
  apply (proj1 prioritiseTasks_ranking
               (lit "Draft email, Launch campaign today")).
  vm_compute. discriminate.
Defined.

(* ================================================================= *)
(** ** Keyword patterns *)

Lemma Matches_word (cs m : jsstring) :
  Matches (fold_right (fun c r => Cat (Chr (anyCase c)) r) Eps cs) m
  <-> List.map canon m = List.map canon cs.
Proof.
  revert m. induction cs as [|c cs IH]; intros m; simpl.
  - split.
    + intros H. apply Matches_Eps_inv in H. now subst.
    + destruct m; [constructor | discriminate].
  - split.
    + intros H. apply Matches_Cat_inv in H as (a & b & -> & Ha & Hb).
      apply Matches_Chr in Ha as (x & -> & Hx). apply N.eqb_eq in Hx.
      apply IH in Hb. simpl. congruence.
    + destruct m as [|x m]; [discriminate|]. simpl. intros E.
      injection E as Hx Hm.
      apply (MCat (s1 := [x])).
      * constructor. now apply N.eqb_eq.
      * now apply IH.
Qed.

Lemma startsWithCI_spec (w t : jsstring) :
  startsWithCI w t = true <->
  exists m rest, t = m ++ rest /\ List.map canon m = List.map canon w.
Proof.
  revert t. induction w as [|x w IH]; intros t; simpl.
  - split; [intros _; now exists [], t|reflexivity].
  - destruct t as [|y t].
    + split; [discriminate|]. intros (m & rest & E & H).
      symmetry in E. apply app_eq_nil in E as [-> _]. discriminate.
    + rewrite andb_true_iff, N.eqb_eq, IH. split.
      * intros [Hy (m & rest & -> & H)]. exists (y :: m), rest.
        simpl. split; congruence.
      * intros (m & rest & E & H). destruct m as [|z m]; [discriminate|].
        simpl in E, H. injection E as <- ->. injection H as Hz Hm.
        split; [exact Hz | now exists m, rest].
Qed.

Lemma includesCI_spec (w t : jsstring) :
  includesCI w t = true <->
  exists pre m post, t = pre ++ m ++ post /\ List.map canon m = List.map canon w.
Proof.
  induction t as [|c t IH]; cbn [includesCI].
  - rewrite orb_false_r, startsWithCI_spec. split.
    + intros (m & rest & E & H). now exists [], m, rest.
    + intros (pre & m & post & E & H). symmetry in E.
      apply app_eq_nil in E as [-> E]. now exists m, post.
  - rewrite orb_true_iff, startsWithCI_spec, IH. split.
    + intros [(m & rest & E & H) | (pre & m & post & -> & H)].
      * now exists [], m, rest.
      * now exists (c :: pre), m, post.
    + intros (pre & m & post & E & H). destruct pre as [|x pre].
      * left. now exists m, post.
      * right. simpl in E. injection E as <- ->. now exists pre, m, post.
Qed.

Lemma test_wordi (w : string) (t : jsstring) :
  test (wordi w) t = includesCI (lit w) t.
Proof.
  apply eq_true_iff_eq. rewrite test_spec, includesCI_spec. unfold wordi.
  split; intros (pre & m & post & E & H); exists pre, m, post;
    (split; [exact E | now apply Matches_word]).
Qed.

Lemma test_Alt (r1 r2 : regex) (t : jsstring) :
  test (Alt r1 r2) t = test r1 t || test r2 t.
Proof.
  apply eq_true_iff_eq. rewrite orb_true_iff, !test_spec. split.
  - intros (pre & m & post & E & H). apply Matches_Alt_inv in H as [H|H];
      [left | right]; now exists pre, m, post.
  - intros [(pre & m & post & E & H) | (pre & m & post & E & H)];
      exists pre, m, post; (split; [exact E|]); [now apply MAltL | now apply MAltR].
Qed.

Lemma test_Fail (t : jsstring) : test Fail t = false.
Proof.
  apply not_true_is_false. rewrite test_spec.
  intros (pre & m & post & _ & H). inversion H.
Qed.

Lemma test_alts (rs : list regex) (t : jsstring) :
  test (alts rs) t = existsb (fun r => test r t) rs.
Proof.
  induction rs as [|r rs IH]; simpl; [apply test_Fail|].
  fold (alts rs). now rewrite test_Alt, IH.
Qed.

(** A pattern [w1|w2|...] under the [i] flag finds a text exactly when the
    text contains one of the words, letter case aside. *)
Lemma test_wordsi (ws : list string) (t : jsstring) :
  test (wordsi ws) t = mentionsAny ws t.
Proof.
  unfold wordsi, mentionsAny. rewrite test_alts.
  induction ws as [|w ws IH]; simpl; [reflexivity|].
  now rewrite test_wordi, IH.
Qed.

Lemma urgencyScore_spec (t : jsstring) : urgencyScore t = urgencyOf t.
Proof. unfold urgencyScore, urgencyOf, urgencyPattern. now rewrite test_wordsi. Qed.

Lemma impactScore_spec (t : jsstring) : impactScore t = impactOf t.
Proof.
  unfold impactScore, impactOf, highImpactPattern, mediumImpactPattern.
  now rewrite !test_wordsi.
Qed.

(* ================================================================= *)
(** ** The candidate tasks and their scores *)

Lemma splitOn_nonempty (sep : char -> bool) (s : jsstring) : splitOn sep s <> [].
Proof.
  destruct s as [|c s]; simpl; [discriminate|].
  destruct (sep c); [discriminate|]. destruct (splitOn sep s); discriminate.
Qed.

Lemma splitOn_weave (sep : char -> bool) (s : jsstring) :
  exists seps, forallb sep seps = true
               /\ List.length (splitOn sep s) = S (List.length seps)
               /\ weave (splitOn sep s) seps = s.
Proof.
  induction s as [|c s (seps & Hs & Hl & Hw)]; simpl.
  - now exists [].
  - destruct (sep c) eqn:Hc.
    + exists (c :: seps). simpl. rewrite Hc, Hs, Hl, Hw. auto.
    + destruct (splitOn sep s) as [|p ps]; [discriminate|].
      exists seps. simpl. repeat split; auto.
      destruct seps as [|x seps]; simpl in *; congruence.
Qed.

Lemma splitOn_pieces (sep : char -> bool) (s : jsstring) :
  Forall (fun p => forallb (fun c => negb (sep c)) p = true) (splitOn sep s).
Proof.
  induction s as [|c s IH]; simpl.
  - now constructor.
  - destruct (sep c) eqn:Hc.
    + now constructor.
    + destruct (splitOn sep s) as [|p ps].
      * constructor; [simpl; now rewrite Hc | constructor].
      * inversion IH; subst. constructor; [|assumption].
        simpl. now rewrite Hc.
Qed.

Lemma mapiFrom_rankTask_In (lines : list jsstring) (item : RankedTask) :
  forall i, In item (mapiFrom rankTask i lines) ->
            exists t j, In t lines /\ item = rankTask t j.
Proof.
  induction lines as [|t lines IH]; intros i; simpl; [tauto|].
  intros [<- | H].
  - exists t, i. auto.
  - apply IH in H as (t' & j & Hin & ->). exists t', j. auto.
Qed.

Lemma mapiFrom_length_any {A B : Type} (f : A -> Z -> B) (l : list A) :
  forall i, List.length (mapiFrom f i l) = List.length l.
Proof.
  induction l as [|x l IH]; intros i; simpl; [reflexivity | now rewrite IH].
Qed.

Lemma mapiFrom_tasks (lines : list jsstring) :
  forall i, List.map task (mapiFrom rankTask i lines) = lines.
Proof.
  induction lines as [|t lines IH]; intros i; simpl; [reflexivity|].
  now rewrite IH.
Qed.

Lemma score_rankTask (t : jsstring) (i : Z) :
  rankTask t i
  = {| task := t; score := 2 * urgencyOf t + impactOf t; index := i |}.
Proof.
  unfold rankTask. rewrite urgencyScore_spec, impactScore_spec.
  f_equal. lia.
Qed.

(** C4: the input is cut at every newline, comma and semicolon; the
    candidates are the trimmed pieces longer than 4; every candidate is
    ranked, once, with its place in the input and the score twice its
    urgency (3 with one of today, urgent, now, soon, asap in it, letter
    case aside, else 1) plus its impact (3, 2 or 1 by keyword tier), and
    nothing else is ranked; the answer renders the ranking, one item per
    candidate, and without candidates it is the instruction to provide a
    list. *)
Theorem prioritiseTasks_scoring (input : jsstring) :
  (exists seps, forallb isTaskSeparator seps = true
                /\ List.length (splitOn isTaskSeparator input)
                   = S (List.length seps)
                /\ weave (splitOn isTaskSeparator input) seps = input)
  /\ Forall (fun p => forallb (fun c => negb (isTaskSeparator c)) p = true)
            (splitOn isTaskSeparator input)
  /\ taskLines input
     = filter (fun t => (4 <? List.length t)%nat)
              (List.map trim (splitOn isTaskSeparator input))
  /\ (forall n t,
        nth_error (taskLines input) n = Some t ->
        In {| task := t;
              score := 2 * urgencyOf t + impactOf t;
              index := Z.of_nat n |}
           (rankedTasks (taskLines input)))
  /\ Permutation (List.map task (rankedTasks (taskLines input)))
                 (taskLines input)
  /\ (forall item, In item (rankedTasks (taskLines input)) ->
        In (task item) (taskLines input)
        /\ (4 < List.length (task item))%nat
        /\ score item = (2 * urgencyOf (task item) + impactOf (task item))%Z)
  /\ (taskLines input = [] -> prioritiseTasks input = noTasksMessage)
  /\ (taskLines input <> [] ->
      prioritiseTasks input
      = join [newline] (mapi renderRanked (rankedTasks (taskLines input)))
      /\ List.length (mapi renderRanked (rankedTasks (taskLines input)))
         = List.length (taskLines input)).
Proof.
  split; [apply splitOn_weave|]. split; [apply splitOn_pieces|].
  split; [reflexivity|].
  pose proof (rankedTasks_perm (taskLines input)) as P.
  split; [|split; [|split; [|split]]].
  - intros n t Hn. apply (Permutation_in _ (Permutation_sym P)).
    rewrite <- score_rankTask.
    apply (nth_error_In _ n). unfold mapi.
    now rewrite mapiFrom_nth, Hn, Z.add_0_l.
  - rewrite (Permutation_map task P). unfold mapi.
    now rewrite mapiFrom_tasks.
  - intros item Hin. apply (Permutation_in _ P) in Hin.
    apply mapiFrom_rankTask_In in Hin as (t & j & Ht & ->).
    cbn [task score rankTask].
    split; [exact Ht|]. split.
    + unfold taskLines in Ht. apply filter_In in Ht as [_ Hlen].
      now apply Nat.ltb_lt in Hlen.
    + rewrite urgencyScore_spec, impactScore_spec. lia.
  - unfold prioritiseTasks. now intros ->.
  - intros Hne. split.
    + unfold prioritiseTasks.
      destruct (taskLines input); [congruence | reflexivity].
    + unfold mapi. rewrite mapiFrom_length_any, (Permutation_length P).
      apply mapiFrom_length_any.
Qed.

Lemma prioritiseTasks_scoring_example :
  In {| task := lit "Launch campaign today"; score := 9; index := 1 |}
     (rankedTasks (taskLines (lit "Draft email, Launch campaign today"))).
Proof.
  apply (proj1 (proj2 (proj2 (proj2
           (prioritiseTasks_scoring (lit "Draft email, Launch campaign today")))))
           1%nat (lit "Launch campaign today")).
  reflexivity.
Defined.

(* ================================================================= *)
(** ** The expression evaluator *)

Lemma test_Chr (p : char -> bool) (s : jsstring) : test (Chr p) s = existsb p s.
Proof.
  apply eq_true_iff_eq. rewrite test_spec, existsb_exists. split.
  - intros (pre & m & post & -> & H). apply Matches_Chr in H as (c & -> & Hc).
    exists c. split; [|exact Hc]. apply in_or_app. right. now left.
  - intros (c & Hin & Hc). apply in_split in Hin as (pre & post & ->).
    exists pre, [c], post. split; [reflexivity | now constructor].
Qed.

Lemma trimStart_nil (s : jsstring) : trimStart s = [] -> forallb isSpace s = true.
Proof.
  induction s as [|c s IH]; simpl; [reflexivity|].
  destruct (isSpace c); [exact IH | discriminate].
Qed.

Lemma trim_nil (s : jsstring) : trim s = [] -> forallb isSpace s = true.
Proof.
  unfold trim, trimEnd. intros H.
  apply (f_equal (@rev char)) in H. rewrite rev_involutive in H. simpl in H.
  apply trimStart_nil in H.
  assert (Hs : forallb isSpace (trimStart s) = true).
  { rewrite forallb_forall in *. intros c Hc. apply H. now apply in_rev in Hc. }
  destruct s as [|c s]; [reflexivity|]. simpl in Hs |- *.
  destruct (isSpace c) eqn:Hc; [|simpl in Hs; now rewrite Hc in Hs].
  simpl. clear H Hc. induction s as [|d s IH]; [reflexivity|].
  simpl in Hs |- *. destruct (isSpace d) eqn:Hd.
  - now apply IH.
  - simpl in Hs. now rewrite Hd in Hs.
Qed.

Lemma digit_not_space (c : char) : isDigit c = true -> isSpace c = false.
Proof.
  unfold isDigit. intros H. apply andb_true_iff in H as [Hlo Hhi].
  apply N.leb_le in Hlo, Hhi.
  unfold isSpace, isLineTerminator. simpl.
  repeat match goal with
         | |- context [c =? ?k] => destruct (N.eqb_spec c k); [lia|]
         end.
  simpl. rewrite (proj2 (N.leb_gt 8192 c)) by lia. reflexivity.
Qed.

Lemma hasDigit_trim (s : jsstring) : hasDigit s = true -> trim s <> [].
Proof.
  intros H E. apply trim_nil in E. unfold hasDigit in H.
  apply existsb_exists in H as (c & Hin & Hc).
  rewrite forallb_forall in E. apply E in Hin.
  apply digit_not_space in Hc. congruence.
Qed.

(** The sanitized text is the cleaned expression exactly when it has a digit. *)
Lemma cleanExpression_spec (input : jsstring) :
  cleanExpression input
  = if hasDigit (sanitize input) then Some (sanitize input) else None.
Proof.
  unfold cleanExpression. rewrite test_Chr. fold (hasDigit (sanitize input)).
  destruct (hasDigit (sanitize input)) eqn:Hd; simpl.
  - apply hasDigit_trim in Hd. destruct (trim (sanitize input)); congruence.
  - now destruct (trim (sanitize input)).
Qed.

Lemma hasDigit_nonempty (s : jsstring) : hasDigit s = true -> s <> [].
Proof. intros H ->. discriminate. Qed.

Section EvaluatorFacts.
Context {rt : Runtime}.

Lemma calculateExpression_no_digit (input : jsstring) :
  hasDigit (sanitize input) = false ->
  calculateExpression input = noExpressionMessage.
Proof.
  intros H. unfold calculateExpression. now rewrite cleanExpression_spec, H.
Qed.

Lemma calculateExpression_digit (input : jsstring) :
  hasDigit (sanitize input) = true ->
  calculateExpression input
  = match evaluate (sanitize input) with
    | Ok v => match finiteNumber v with
              | Some x => successText (sanitize input) x
              | None => nonNumericMessage
              end
    | Throw _ => malformedMessage
    end.
Proof.
  intros H. unfold calculateExpression. rewrite cleanExpression_spec, H.
  apply hasDigit_nonempty in H.
  destruct (sanitize input) as [|c e] eqn:E; [congruence|].
  destruct (evaluate (c :: e)) as [[x|]|err]; try reflexivity.
  unfold finiteNumber. now destruct (isFinite x).
Qed.

Lemma successText_not_explanatory (e : jsstring) (x : float) :
  ~ explanatory (successText e x).
Proof.
  unfold explanatory, successText. intros [H | [H | H]]; discriminate H.
Qed.

End EvaluatorFacts.

Section EvaluatorClaims.
Context {rt : Runtime}.

(** C7 (as amended): the evaluator answers with one of its fixed messages,
    and does not throw, exactly when the sanitized text is empty, has no
    digit, the parser throws, or the value is not a finite number; a finite
    result [x] is rendered with locale grouping and at most 4 decimals when
    [|x| >= 1000], and otherwise through 8 significant digits. *)
Theorem calculateExpression_messages (input : jsstring) :
  (explanatory (calculateExpression input) <->
     trim (sanitize input) = [] \/ hasDigit (sanitize input) = false
     \/ (exists err, evaluate (sanitize input) = Throw err)
     \/ (exists v, evaluate (sanitize input) = Ok v /\ finiteNumber v = None))
  /\ (trim (sanitize input) = [] \/ hasDigit (sanitize input) = false ->
      calculateExpression input = noExpressionMessage)
  /\ (forall err, hasDigit (sanitize input) = true ->
                  evaluate (sanitize input) = Throw err ->
                  calculateExpression input = malformedMessage)
  /\ (forall x, hasDigit (sanitize input) = true ->
                evaluate (sanitize input) = Ok (VNumber x) ->
                isFinite x = true ->
                calculateExpression input
                = lit "The expression " ++ trim (sanitize input)
                  ++ lit " evaluates to **"
                  ++ (if PrimFloat.leb 1000 (PrimFloat.abs x)
                      then toLocaleString x 4
                      else numberToString (toNumber (toPrecision x 8)))
                  ++ lit "**.").
Proof.
  assert (Hnone : trim (sanitize input) = [] \/ hasDigit (sanitize input) = false ->
                  calculateExpression input = noExpressionMessage).
  { intros [H|H]; apply calculateExpression_no_digit; [|exact H].
    destruct (hasDigit (sanitize input)) eqn:Hd; [|reflexivity].
    now apply hasDigit_trim in Hd. }
  split; [|split; [exact Hnone|split]].
  - destruct (hasDigit (sanitize input)) eqn:Hd.
    + rewrite (calculateExpression_digit _ Hd).
      destruct (evaluate (sanitize input)) as [v|err].
      * destruct (finiteNumber v) as [x|] eqn:Hv.
        -- split; [intros H; now apply successText_not_explanatory in H|].
           intros [H|[H|[(err & H)|(v' & H & Hv')]]]; try discriminate.
           ++ now apply hasDigit_trim in Hd.
           ++ injection H as <-. congruence.
        -- split; [|intros _; right; right; reflexivity].
           intros _. right. right. right. now exists v.
      * split; [|intros _; right; left; reflexivity].
        intros _. right. right. left. now exists err.
    + rewrite (calculateExpression_no_digit _ Hd).
      split; [intros _; now right; left | intros _; now left].
  - intros err Hd He. now rewrite (calculateExpression_digit _ Hd), He.
  - intros x Hd He Hx. rewrite (calculateExpression_digit _ Hd), He.
    unfold finiteNumber. now rewrite Hx.
Qed.

(** C10: a value that is not a finite number (an infinity, NaN, or no
    number at all) gets the non-numeric message; an answer that is none of
    the fixed messages comes from a finite number. *)
Theorem calculateExpression_non_finite :
  (forall (input expression : jsstring) (v : jsvalue),
     cleanExpression input = Some expression ->
     evaluate expression = Ok v ->
     finiteNumber v = None ->
     calculateExpression input = nonNumericMessage)
  /\ (forall input : jsstring,
        ~ explanatory (calculateExpression input) ->
        exists x, evaluate (sanitize input) = Ok (VNumber x)
                  /\ isFinite x = true
                  /\ calculateExpression input = successText (sanitize input) x).
Proof.
  split.
  - intros input expression v Hc He Hv.
    rewrite cleanExpression_spec in Hc.
    destruct (hasDigit (sanitize input)) eqn:Hd; [|discriminate].
    injection Hc as <-.
    now rewrite (calculateExpression_digit _ Hd), He, Hv.
  - intros input Hn.
    destruct (hasDigit (sanitize input)) eqn:Hd.
    + rewrite (calculateExpression_digit _ Hd) in *.
      destruct (evaluate (sanitize input)) as [[x|]|err]; simpl in *.
      * destruct (isFinite x) eqn:Hx.
        -- now exists x.
        -- exfalso. apply Hn. right. now right.
      * exfalso. apply Hn. right. now right.
      * exfalso. apply Hn. right. now left.
    + exfalso. apply Hn. left. now apply calculateExpression_no_digit.
Qed.

End EvaluatorClaims.

(** C7 (as stated) fails: [1/0] is sanitized to itself, has digits, and the
    parser returns [Infinity] without throwing, yet the answer is a fixed
    message. *)
Lemma calculateExpression_division_by_zero :
  trim (sanitize (lit "1/0")) = lit "1/0"
  /\ hasDigit (sanitize (lit "1/0")) = true
  /\ @evaluate tableRuntime (sanitize (lit "1/0")) = Ok (VNumber infinity)
  /\ @calculateExpression tableRuntime (lit "1/0") = nonNumericMessage.
Proof. repeat split; vm_compute; reflexivity. Qed.

Lemma calculateExpression_messages_example :
  @calculateExpression tableRuntime (lit "What is 2+2?")
  = lit "The expression 2+2 evaluates to **4**.".
Proof.
  apply (proj2 (proj2 (proj2
           (@calculateExpression_messages tableRuntime (lit "What is 2+2?"))))
           4%float);
    reflexivity.
Defined.

Lemma calculateExpression_non_finite_example :
  @calculateExpression tableRuntime (lit "What is 0/0?") = nonNumericMessage.
Proof.
  apply (proj1 (@calculateExpression_non_finite tableRuntime)
               (lit "What is 0/0?") (lit "  0/0") (VNumber nan));
    reflexivity.
Defined.

(* ================================================================= *)
(** ** The dispatcher *)

Lemma findM_user (l : list AgentMessage) :
  findM (fun message => r <- getProp message "role" ;;
                        Ok (isString "user" r))
        (ofMessages l)
  = Ok (option_map ofMessage (find isUser l)).
Proof.
  induction l as [|m l IH]; [reflexivity|].
  cbn [ofMessages List.map findM find]. fold (ofMessages l).
  rewrite getProp_role. cbn [bind]. rewrite isString_user.
  destruct (isUser m); [reflexivity | exact IH].
Qed.

Lemma lastUser_none (history : list AgentMessage) :
  existsb isUser history = false -> lastUser history = None.
Proof.
  intros H. unfold lastUser. destruct (find isUser (rev history)) as [m|] eqn:E;
    [|reflexivity].
  apply find_some in E as [Hin Hm]. apply in_rev in Hin.
  assert (existsb isUser history = true) by (apply existsb_exists; eauto).
  congruence.
Qed.

Lemma matchKnowledge_nonempty (text advice : jsstring) :
  matchKnowledge text = Some advice -> advice <> [].
Proof.
  unfold matchKnowledge.
  destruct (find _ KNOWLEDGE_BASE) as [entry|] eqn:E; [|discriminate].
  intros H. injection H as <-. apply find_some in E as [Hin _].
  simpl in Hin. destruct Hin as [<-|[<-|[<-|[]]]]; discriminate.
Qed.

Lemma followUpSuggestions_length (intent : Intent) :
  List.length (followUpSuggestions intent) = 3%nat.
Proof. now destruct intent. Qed.

Section DispatcherFacts.
Context {rt : Runtime}.

Lemma respond_typed (intent : Intent) (history : list AgentMessage)
    (userText : jsstring) :
  exists st, respond intent (ofMessages history) userText
             = Ok (contentOf intent history userText, st).
Proof.
  destruct intent; simpl; try (eexists; reflexivity).
  - rewrite summarizeConversation_typed. eexists. reflexivity.
  - destruct (matchKnowledge userText) as [advice|] eqn:E;
      [|eexists; reflexivity].
    apply matchKnowledge_nonempty in E.
    destruct advice; [congruence | eexists; reflexivity].
Qed.

(** On a well-typed history the dispatcher returns: the idle reply without
    a user message, and otherwise the reply to the last user message. *)
Lemma runAgent_typed (history : list AgentMessage) :
  match lastUser history with
  | None => runAgent (ofMessages history) = Ok idleReply
  | Some m =>
      let userText := trim (content m) in
      let intent := classifyIntent userText in
      exists st,
        runAgent (ofMessages history)
        = Ok {| replyRole := Assistant;
                replyContent := contentOf intent history userText;
                steps := [intentStep intent; st; nextMoveStep];
                suggestions := followUpSuggestions intent |}
  end.
Proof.
  unfold runAgent, lastUser, ofMessages. rewrite <- map_rev.
  fold (ofMessages (rev history)). rewrite findM_user. cbn [bind].
  destruct (find isUser (rev history)) as [m|]; cbn [option_map]; [|reflexivity].
  rewrite getProp_content. cbn [bind stringReceiver].
  fold (ofMessages history).
  destruct (respond_typed (classifyIntent (trim (content m))) history
                          (trim (content m))) as (st & ->).
  exists st. reflexivity.
Qed.

Lemma runAgent_returns (history : list AgentMessage) :
  exists reply, runAgent (ofMessages history) = Ok reply.
Proof.
  pose proof (runAgent_typed history) as H.
  destruct (lastUser history) as [m|].
  - destruct H as (st & ->). eexists. reflexivity.
  - rewrite H. eexists. reflexivity.
Qed.

(** C5: on every well-typed history, whatever the parser does, the
    dispatcher returns a reply and does not throw: the idle reply without a
    user message, and otherwise an assistant reply of three steps whose
    content is the text of the generator for the detected intent. *)
Theorem runAgent_never_throws (history : list AgentMessage) :
  exists reply,
    runAgent (ofMessages history) = Ok reply
    /\ replyRole reply = Assistant
    /\ match lastUser history with
       | None => reply = idleReply
       | Some m =>
           replyContent reply
           = contentOf (classifyIntent (trim (content m))) history
                       (trim (content m))
           /\ List.length (steps reply) = 3%nat
       end.
Proof.
  pose proof (runAgent_typed history) as H.
  destruct (lastUser history) as [m|].
  - destruct H as (st & ->). eexists. split; [reflexivity|]. now repeat split.
  - rewrite H. eexists. split; [reflexivity|]. now split.
Qed.

(** C6: without a message of role [user], and so on the empty list, the
    dispatcher returns the idle reply, which carries 3 suggestions. *)
Theorem runAgent_idle (history : list AgentMessage) :
  existsb isUser history = false ->
  runAgent (ofMessages history) = Ok idleReply
  /\ List.length (suggestions idleReply) = 3%nat.
Proof.
  intros H. apply lastUser_none in H.
  pose proof (runAgent_typed history) as Hr. rewrite H in Hr.
  now split.
Qed.

(** C9: every reply of the dispatcher carries exactly 3 suggestions, as
    does the list of every intent. *)
Theorem runAgent_three_suggestions (history : list AgentMessage) :
  (exists reply, runAgent (ofMessages history) = Ok reply
                 /\ List.length (suggestions reply) = 3%nat)
  /\ (forall intent, List.length (followUpSuggestions intent) = 3%nat).
Proof.
  split; [|apply followUpSuggestions_length].
  pose proof (runAgent_typed history) as H.
  destruct (lastUser history) as [m|].
  - destruct H as (st & ->). eexists. split; [reflexivity|].
    apply followUpSuggestions_length.
  - rewrite H. eexists. split; reflexivity.
Qed.

(** A message that is [null] makes the dispatcher throw: only well-typed
    histories are safe. *)
Remark runAgent_null_message : runAgent [JNull] = Throw TypeError.
Proof. reflexivity. Qed.

End DispatcherFacts.

Lemma runAgent_idle_example :
  @runAgent tableRuntime (ofMessages [say Assistant "Hi, I am Radius."])
  = Ok idleReply
  /\ List.length (suggestions idleReply) = 3%nat.
Proof.
  apply (@runAgent_idle tableRuntime [say Assistant "Hi, I am Radius."]).
  reflexivity.
Defined.

(* ================================================================= *)
(** ** The chat route *)

Lemma getPropOpt_messages (parsed : json) :
  getPropOpt parsed "messages" = Ok (messagesField parsed).
Proof. now destruct parsed. Qed.

Section RouteFacts.
Context {rt : Runtime}.

Lemma handle_parsed (parsed : json) :
  handle (Ok parsed)
  = match nullish (messagesField parsed) (JArray []) with
    | JArray ((_ :: _) as messages) =>
        reply <- runAgent messages ;;
        Ok {| status := 200; body := ReplyBody reply |}
    | _ => Ok badRequest
    end.
Proof. unfold handle. cbn [bind]. now rewrite getPropOpt_messages. Qed.

(** C8: the handler answers 400 with the fixed error when [messages] is
    missing, is not an array or is empty; 200 with the dispatcher's reply
    for a non-empty array of messages; and 500 with the fixed error when
    reading the body or the dispatcher throws. *)
Theorem POST_responses :
  (forall parsed, messagesField parsed = None -> POST (Ok parsed) = badRequest)
  /\ (forall parsed v,
        messagesField parsed = Some v -> (forall items, v <> JArray items) ->
        POST (Ok parsed) = badRequest)
  /\ (forall parsed,
        messagesField parsed = Some (JArray []) -> POST (Ok parsed) = badRequest)
  /\ (forall parsed history,
        messagesField parsed = Some (JArray (ofMessages history)) ->
        history <> [] ->
        exists reply,
          runAgent (ofMessages history) = Ok reply
          /\ POST (Ok parsed) = {| status := 200; body := ReplyBody reply |})
  /\ (forall err, POST (Throw err) = serverError)
  /\ (forall parsed items err,
        messagesField parsed = Some (JArray items) ->
        runAgent items = Throw err ->
        POST (Ok parsed) = serverError)
  /\ status badRequest = 400%Z
  /\ body badRequest = ErrorBody (lit "Please provide at least one user message.")
  /\ status serverError = 500%Z
  /\ body serverError = ErrorBody (lit "Unexpected agent error. Please try again.").
Proof.
  unfold POST. repeat split.
  - intros parsed H. now rewrite handle_parsed, H.
  - intros parsed v H Hv. rewrite handle_parsed, H.
    destruct v as [| | | |items|]; try reflexivity.
    now destruct (Hv items).
  - intros parsed H. now rewrite handle_parsed, H.
  - intros parsed history H Hne. rewrite handle_parsed, H.
    destruct (runAgent_returns history) as (reply & Hr).
    exists reply. split; [exact Hr|].
    destruct history as [|m history]; [congruence|].
    cbn [nullish ofMessages List.map] in *. now rewrite Hr.
  - intros parsed items err H Hr. rewrite handle_parsed, H.
    destruct items as [|x items]; [discriminate Hr|].
    cbn [nullish]. now rewrite Hr.
Qed.

End RouteFacts.

Lemma POST_responses_example :
  status (@POST tableRuntime (Ok (requestOf [say User "What is 2+2?"]))) = 200%Z.
Proof.
  destruct (proj1 (proj2 (proj2 (proj2 (@POST_responses tableRuntime))))
                  (requestOf [say User "What is 2+2?"])
                  [say User "What is 2+2?"] eq_refl)
    as (reply & _ & ->); [discriminate | reflexivity].
Defined.

(* ================================================================= *)
(** ** Trimming *)

Lemma trimStart_app (a b : jsstring) :
  trimStart (a ++ b)
  = match trimStart a with
    | [] => trimStart b
    | _ :: _ => trimStart a ++ b
    end.
Proof.
  induction a as [|c a IH]; simpl; [reflexivity|].
  destruct (isSpace c); [exact IH | reflexivity].
Qed.

Lemma trimEnd_cons (c : char) (s : jsstring) :
  trimEnd (c :: s)
  = match trimEnd s with
    | [] => if isSpace c then [] else [c]
    | _ :: _ => c :: trimEnd s
    end.
Proof.
  unfold trimEnd. simpl rev at 2. rewrite trimStart_app.
  destruct (trimStart (rev s)) as [|x u] eqn:E.
  - simpl. now destruct (isSpace c).
  - rewrite rev_app_distr. simpl rev at 1. cbn [app].
    destruct (rev (x :: u)) as [|y v] eqn:R; [|reflexivity].
    apply (f_equal (@List.length char)) in R. rewrite length_rev in R.
    discriminate R.
Qed.

Lemma trimEnd_nil : trimEnd [] = [].
Proof. reflexivity. Qed.

Lemma trimStart_head (c : char) (s : jsstring) :
  isSpace c = false -> trimStart (c :: s) = c :: s.
Proof. intros H. simpl. now rewrite H. Qed.

Lemma trimEnd_head (c : char) (s : jsstring) :
  isSpace c = false -> trimEnd (c :: s) = c :: trimEnd s.
Proof.
  intros H. rewrite trimEnd_cons, H. now destruct (trimEnd s).
Qed.

Lemma trimEnd_last (s : jsstring) (d : char) :
  trimEnd s <> [] -> isSpace (last (trimEnd s) d) = false.
Proof.
  induction s as [|c s IH]; [now rewrite trimEnd_nil|].
  rewrite trimEnd_cons. destruct (trimEnd s) as [|x u] eqn:E.
  - destruct (isSpace c) eqn:Hc; [congruence|]. intros _. exact Hc.
  - intros _. change (last (c :: x :: u) d) with (last (x :: u) d).
    apply IH. discriminate.
Qed.

Lemma trimStart_cases (s : jsstring) :
  trimStart s = [] \/ exists c u, trimStart s = c :: u /\ isSpace c = false.
Proof.
  induction s as [|c s IH]; simpl; [now left|].
  destruct (isSpace c) eqn:Hc; [exact IH|]. right. now exists c, s.
Qed.

Lemma last_indep {A : Type} (l : list A) (d e : A) :
  l <> [] -> last l d = last l e.
Proof.
  induction l as [|x l IH]; [congruence|]. intros _.
  destruct l as [|y l]; [reflexivity|]. apply IH. discriminate.
Qed.

(** A trimmed text has no white space at either end. *)
Lemma trim_isTrimmed (s : jsstring) : isTrimmed (trim s) = true.
Proof.
  unfold trim. destruct (trimStart_cases s) as [->|(c & u & -> & Hc)];
    [reflexivity|].
  rewrite (trimEnd_head c u Hc). unfold isTrimmed. rewrite Hc. simpl negb at 1.
  rewrite <- (trimEnd_head c u Hc). rewrite andb_true_l.
  apply negb_true_iff, trimEnd_last. rewrite (trimEnd_head c u Hc). discriminate.
Qed.

Lemma trimEnd_fixed (s : jsstring) (d : char) :
  s <> [] -> isSpace (last s d) = false -> trimEnd s = s.
Proof.
  induction s as [|c s IH]; [congruence|]. intros _ H.
  rewrite trimEnd_cons. destruct s as [|x u].
  - rewrite trimEnd_nil. simpl in H. now rewrite H.
  - change (last (c :: x :: u) d) with (last (x :: u) d) in H.
    rewrite IH by (discriminate || exact H). reflexivity.
Qed.

(** Trimming leaves a text without surrounding white space as it is. *)
Lemma trim_fixed (s : jsstring) : isTrimmed s = true -> trim s = s.
Proof.
  destruct s as [|c u]; [reflexivity|]. unfold isTrimmed, trim.
  intros H. apply andb_true_iff in H as [Hc Hl].
  apply negb_true_iff in Hc, Hl.
  rewrite (trimStart_head c u Hc). now apply trimEnd_fixed with c.
Qed.

Lemma trim_idempotent (s : jsstring) : trim (trim s) = trim s.
Proof. apply trim_fixed, trim_isTrimmed. Qed.

Lemma incl_trimStart (s : jsstring) : incl (trimStart s) s.
Proof.
  induction s as [|c s IH]; simpl; [apply incl_refl|].
  destruct (isSpace c); [now apply incl_tl | apply incl_refl].
Qed.

Lemma incl_trim (s : jsstring) : incl (trim s) s.
Proof.
  unfold trim, trimEnd. intros c Hc. apply in_rev in Hc.
  apply incl_trimStart in Hc. apply in_rev in Hc. now apply incl_trimStart in Hc.
Qed.

Lemma forallb_trim (p : char -> bool) (s : jsstring) :
  forallb p s = true -> forallb p (trim s) = true.
Proof.
  rewrite !forallb_forall. intros H c Hc. now apply H, incl_trim.
Qed.

(* ================================================================= *)
(** ** More on the expression evaluator *)

Lemma isMathChar_comma : isMathChar comma = false.
Proof. reflexivity. Qed.

(** Dropping the commas after the filter is the same as never keeping
    them: the two replacements of [cleanExpression] are one filter. *)
Lemma sanitize_filter (input : jsstring) :
  sanitize input = filter isMathChar input.
Proof.
  unfold sanitize. induction input as [|c s IH]; [reflexivity|].
  cbn [filter]. destruct (N.eqb_spec c comma) as [->|Hc].
  - rewrite isMathChar_comma. cbn [orb filter]. now rewrite N.eqb_refl.
  - rewrite orb_false_r. destruct (isMathChar c); [|exact IH].
    cbn [filter]. apply N.eqb_neq in Hc. rewrite Hc. cbn [negb]. now f_equal.
Qed.

Lemma filter_idempotent {A : Type} (p : A -> bool) (l : list A) :
  filter p (filter p l) = filter p l.
Proof.
  induction l as [|x l IH]; [reflexivity|]. simpl.
  destruct (p x) eqn:Hx; [|exact IH]. simpl. now rewrite Hx, IH.
Qed.

Lemma forallb_filter {A : Type} (p : A -> bool) (l : list A) :
  forallb p (filter p l) = true.
Proof.
  apply forallb_forall. intros x Hx. now apply filter_In in Hx.
Qed.

(** X1: what reaches the parser is made of digits, operators, parentheses,
    dots and white space only, without any comma, and has a digit. *)
Theorem cleanExpression_safe (input expression : jsstring) :
  cleanExpression input = Some expression ->
  forallb isMathChar expression = true
  /\ existsb (N.eqb comma) expression = false
  /\ hasDigit expression = true
  /\ (forall c, In c expression <-> In c input /\ isMathChar c = true).
Proof.
  rewrite cleanExpression_spec.
  destruct (hasDigit (sanitize input)) eqn:Hd; [|discriminate].
  intros H. injection H as <-. rewrite sanitize_filter in *.
  split; [apply forallb_filter|]. split; [|split; [exact Hd|]].
  - apply not_true_is_false. intros H. apply existsb_exists in H as (c & Hin & Hc).
    apply N.eqb_eq in Hc. subst c. apply filter_In in Hin as [_ Hin].
    now rewrite isMathChar_comma in Hin.
  - intros c. apply filter_In.
Qed.

Lemma cleanExpression_safe_example :
  forallb isMathChar (lit " 1000 * (2 + 3) ") = true.
Proof.
  apply (proj1 (@cleanExpression_safe (lit "Total: 1,000 * (2 + 3) euros")
                                     (lit " 1000 * (2 + 3) ") eq_refl)).
Defined.

(** X2: cleaning is idempotent: a cleaned expression cleans to itself. *)
Theorem cleanExpression_idempotent (input expression : jsstring) :
  cleanExpression input = Some expression ->
  cleanExpression expression = Some expression.
Proof.
  rewrite !cleanExpression_spec.
  destruct (hasDigit (sanitize input)) eqn:Hd; [|discriminate].
  intros H. injection H as <-.
  assert (E : sanitize (sanitize input) = sanitize input)
    by (rewrite !sanitize_filter; apply filter_idempotent).
  now rewrite E, Hd.
Qed.

Lemma cleanExpression_idempotent_example :
  cleanExpression (lit "(12 + 4) * 3  ") = Some (lit "(12 + 4) * 3  ").
Proof.
  apply (@cleanExpression_idempotent (lit "(12 + 4) * 3 = ?")
                                    (lit "(12 + 4) * 3  ")).
  reflexivity.
Defined.

(* ================================================================= *)
(** ** Letter case *)

Lemma canon_cases (c : char) :
  canon c = c \/ (97 <= c <= 122 /\ canon c = c - 32).
Proof.
  unfold canon. destruct (N.leb_spec 97 c); destruct (N.leb_spec c 122);
    simpl; auto.
Qed.

Lemma canon_idempotent (c : char) : canon (canon c) = canon c.
Proof.
  destruct (canon_cases c) as [H|[Hc ->]]; [now rewrite !H|].
  unfold canon. destruct (N.leb_spec 97 (c - 32)); [|reflexivity].
  destruct (N.leb_spec (c - 32) 122); [lia | reflexivity].
Qed.

Lemma isSpace_printable (c : char) : 33 <= c <= 126 -> isSpace c = false.
Proof.
  intros H. unfold isSpace, isLineTerminator. simpl.
  repeat match goal with
         | |- context [c =? ?k] => destruct (N.eqb_spec c k); [lia|]
         end.
  simpl. rewrite (proj2 (N.leb_gt 8192 c)) by lia. reflexivity.
Qed.

Lemma isLineTerminator_printable (c : char) :
  33 <= c <= 126 -> isLineTerminator c = false.
Proof.
  intros H. unfold isLineTerminator. simpl.
  repeat match goal with
         | |- context [c =? ?k] => destruct (N.eqb_spec c k); [lia|]
         end.
  reflexivity.
Qed.

Lemma isDigit_letter (c : char) : 65 <= c <= 122 -> isDigit c = false.
Proof.
  intros H. unfold isDigit. rewrite (proj2 (N.leb_gt c 57)) by lia.
  apply andb_false_r.
Qed.

Lemma isMathChar_letter (c : char) :
  65 <= c <= 90 \/ 97 <= c <= 122 -> isMathChar c = false.
Proof.
  intros H. unfold isMathChar.
  rewrite isDigit_letter, isSpace_printable by lia. simpl.
  repeat match goal with
         | |- context [c =? ?k] => destruct (N.eqb_spec c k); [lia|]
         end.
  reflexivity.
Qed.

Lemma isDigit_canon (c : char) : isDigit (canon c) = isDigit c.
Proof.
  destruct (canon_cases c) as [->|[Hc ->]]; [reflexivity|].
  now rewrite !isDigit_letter by lia.
Qed.

Lemma isMathChar_canon (c : char) : isMathChar (canon c) = isMathChar c.
Proof.
  destruct (canon_cases c) as [->|[Hc ->]]; [reflexivity|].
  now rewrite !isMathChar_letter by lia.
Qed.

Lemma dot_canon (c : char) : dot (canon c) = dot c.
Proof.
  destruct (canon_cases c) as [->|[Hc ->]]; [reflexivity|].
  unfold dot. now rewrite !isLineTerminator_printable by lia.
Qed.

Lemma anyCase_canon (k c : char) : anyCase k (canon c) = anyCase k c.
Proof. unfold anyCase. now rewrite canon_idempotent. Qed.

Lemma nullable_deriv_canon (r : regex) (c : char) :
  caseBlind r -> deriv (canon c) r = deriv c r.
Proof.
  induction r as [| |p|r1 IH1 r2 IH2|r1 IH1 r2 IH2|r IH]; simpl; intros H;
    try reflexivity.
  - now rewrite H.
  - destruct H as [H1 H2]. now rewrite IH1, IH2.
  - destruct H as [H1 H2]. now rewrite IH1, IH2.
  - now rewrite IH.
Qed.

Lemma caseBlind_deriv (r : regex) (c : char) :
  caseBlind r -> caseBlind (deriv c r).
Proof.
  induction r as [| |p|r1 IH1 r2 IH2|r1 IH1 r2 IH2|r IH]; simpl; intros H;
    try exact I.
  - now destruct (p c).
  - destruct H as [H1 H2]. destruct (nullable r1); simpl; auto.
  - destruct H as [H1 H2]. auto.
  - auto.
Qed.

Lemma matchPrefix_canon (s : jsstring) :
  forall r, caseBlind r -> matchPrefix r (List.map canon s) = matchPrefix r s.
Proof.
  induction s as [|c s IH]; intros r H; simpl; [reflexivity|].
  rewrite (nullable_deriv_canon r c H). now rewrite IH by now apply caseBlind_deriv.
Qed.

Lemma test_canon (r : regex) (s : jsstring) :
  caseBlind r -> test r (List.map canon s) = test r s.
Proof.
  intros H. induction s as [|c s IH].
  - reflexivity.
  - cbn [List.map test].
    change (canon c :: List.map canon s) with (List.map canon (c :: s)).
    now rewrite (matchPrefix_canon (c :: s) r H), IH.
Qed.

Lemma test_sameLetters (r : regex) (s t : jsstring) :
  caseBlind r -> sameLetters s t -> test r s = test r t.
Proof.
  intros H E. rewrite <- (test_canon r s H), <- (test_canon r t H).
  now rewrite E.
Qed.

Lemma caseBlind_wordi (w : string) : caseBlind (wordi w).
Proof.
  unfold wordi. induction (lit w) as [|k ks IH]; simpl; [exact I|].
  split; [intros c; apply anyCase_canon | exact IH].
Qed.

Lemma caseBlind_wordsi (ws : list string) : caseBlind (wordsi ws).
Proof.
  unfold wordsi. induction ws as [|w ws IH]; simpl; [exact I|].
  split; [apply caseBlind_wordi | exact IH].
Qed.

Lemma caseBlind_mathPattern : caseBlind mathPattern.
Proof.
  simpl. repeat split; intros c;
    first [apply isDigit_canon | apply isMathChar_canon].
Qed.

Lemma caseBlind_brainstormPattern : caseBlind brainstormPattern.
Proof.
  unfold brainstormPattern, Opt. cbn [alts fold_right caseBlind].
  repeat split; try exact I; exact (anyCase_canon _).
Qed.

Lemma caseBlind_prioritizePattern : caseBlind prioritizePattern.
Proof.
  unfold prioritizePattern. cbn [alts seqs fold_right caseBlind].
  repeat split; try exact I; try exact (anyCase_canon _).
  - intros c. now rewrite !anyCase_canon.
  - exact dot_canon.
Qed.

(** X3: the classifier ignores the case of ASCII letters. *)
Theorem classifyIntent_caseBlind (s t : jsstring) :
  sameLetters s t -> classifyIntent s = classifyIntent t.
Proof.
  intros E. unfold classifyIntent.
  rewrite (@test_sameLetters mathPattern s t caseBlind_mathPattern E).
  rewrite (@test_sameLetters planPattern s t (caseBlind_wordsi _) E).
  rewrite (@test_sameLetters brainstormPattern s t caseBlind_brainstormPattern E).
  rewrite (@test_sameLetters summarizePattern s t (caseBlind_wordsi _) E).
  now rewrite (@test_sameLetters prioritizePattern s t caseBlind_prioritizePattern E).
Qed.

Lemma classifyIntent_caseBlind_example :
  classifyIntent (lit "RECAP our chat") = classifyIntent (lit "recap OUR Chat").
Proof.
  apply (@classifyIntent_caseBlind (lit "RECAP our chat") (lit "recap OUR Chat")).
  reflexivity.
Defined.

Unset Implicit Arguments.

(* ================================================================= *)
(** ** The keyword intents *)

Lemma Matches_wordi (w : string) (m : jsstring) :
  Matches (wordi w) m <-> sameLetters m (lit w).
Proof. unfold wordi, sameLetters. apply Matches_word. Qed.

Lemma includesCI_sameLetters (w t : jsstring) :
  includesCI w t = true <->
  exists pre m post, t = pre ++ m ++ post /\ sameLetters m w.
Proof. apply includesCI_spec. Qed.

Lemma includesCI_prefix (w v t : jsstring) :
  includesCI (w ++ v) t = true -> includesCI w t = true.
Proof.
  rewrite !includesCI_sameLetters. intros (pre & m & post & -> & E).
  exists pre, (firstn (List.length w) m), (skipn (List.length w) m ++ post).
  split.
  - f_equal. now rewrite app_assoc, firstn_skipn.
  - unfold sameLetters in *. rewrite <- firstn_map, E, map_app.
    rewrite <- (length_map canon w), firstn_app, Nat.sub_diag, firstn_all.
    simpl. apply app_nil_r.
Qed.

Lemma test_optional_suffix (w : string) (p : char -> bool) (t : jsstring) :
  test (Cat (wordi w) (Opt (Chr p))) t = includesCI (lit w) t.
Proof.
  apply eq_true_iff_eq. rewrite test_spec, includesCI_sameLetters. split.
  - intros (pre & m & post & -> & H).
    apply Matches_Cat_inv in H as (a & b & -> & Ha & _).
    apply Matches_wordi in Ha. exists pre, a, (b ++ post).
    split; [now rewrite <- !app_assoc | exact Ha].
  - intros (pre & m & post & -> & H). exists pre, m, post.
    split; [reflexivity|]. rewrite <- (app_nil_r m).
    apply MCat; [now apply Matches_wordi | apply MAltR; constructor].
Qed.

Lemma test_brainstormPattern (t : jsstring) :
  test brainstormPattern t = mentionsAny ideaWords t.
Proof.
  unfold brainstormPattern, mentionsAny, ideaWords.
  rewrite test_alts. cbn [existsb].
  rewrite !test_wordi, test_optional_suffix.
  destruct (includesCI (lit "ideas") t) eqn:E; [|reflexivity].
  apply (includesCI_prefix (lit "idea") (lit "s")) in E. now rewrite E.
Qed.

Lemma Matches_prioritise (m : jsstring) :
  Matches (seqs [wordi "prioriti";
                 Chr (fun c => anyCase 115 c || anyCase 122 c);
                 wordi "e"]) m
  <-> sameLetters m (lit "prioritise") \/ sameLetters m (lit "prioritize").
Proof.
  cbn [seqs fold_right]. split.
  - intros H.
    apply Matches_Cat_inv in H as (a & r1 & -> & Ha & H).
    apply Matches_Cat_inv in H as (x & r2 & -> & Hx & H).
    apply Matches_Cat_inv in H as (e & r3 & -> & He & H).
    apply Matches_Eps_inv in H as ->.
    apply Matches_Chr in Hx as (c & -> & Hc).
    apply Matches_wordi in Ha, He. unfold sameLetters in *.
    rewrite !map_app, Ha, He. cbn [List.map].
    apply orb_true_iff in Hc as [Hc|Hc]; apply N.eqb_eq in Hc; rewrite Hc;
      [left | right]; reflexivity.
  - intros H.
    assert (E : exists a c e, m = a ++ [c] ++ e ++ []
                /\ sameLetters a (lit "prioriti")
                /\ (anyCase 115 c || anyCase 122 c) = true
                /\ sameLetters e (lit "e")).
    { unfold sameLetters in *.
      destruct H as [H|H];
        do 11 (destruct m as [|? m]; try discriminate H);
        injection H; intros;
        eexists [_; _; _; _; _; _; _; _], _, [_];
        (split; [reflexivity|]); unfold anyCase; cbn [List.map];
        repeat match goal with E : canon _ = _ |- _ => rewrite E; clear E end;
        repeat split; reflexivity. }
    destruct E as (a & c & e & -> & Ha & Hc & He).
    apply MCat; [now apply Matches_wordi|].
    apply MCat; [now constructor|].
    apply MCat; [now apply Matches_wordi | constructor].
Qed.

Lemma Matches_orderTasks (m : jsstring) :
  Matches (seqs [wordi "order"; Star (Chr dot); wordi "tasks"]) m
  <-> exists a mid b, m = a ++ mid ++ b
                      /\ sameLetters a (lit "order")
                      /\ forallb dot mid = true
                      /\ sameLetters b (lit "tasks").
Proof.
  cbn [seqs fold_right]. split.
  - intros H.
    apply Matches_Cat_inv in H as (a & r1 & -> & Ha & H).
    apply Matches_Cat_inv in H as (mid & r2 & -> & Hm & H).
    apply Matches_Cat_inv in H as (b & r3 & -> & Hb & H).
    apply Matches_Eps_inv in H as ->.
    exists a, mid, b. rewrite app_nil_r.
    repeat split; [now apply Matches_wordi | now apply Matches_Star_Chr
                  | now apply Matches_wordi].
  - intros (a & mid & b & -> & Ha & Hm & Hb).
    apply MCat; [now apply Matches_wordi|].
    apply MCat; [now apply Matches_Star_Chr|].
    rewrite <- (app_nil_r b).
    apply MCat; [now apply Matches_wordi | constructor].
Qed.

Lemma test_prioritizePattern (t : jsstring) :
  test prioritizePattern t = true
  <-> mentionsAny rankingWords t = true \/ OrderThenTasks t.
Proof.
  unfold prioritizePattern, mentionsAny, rankingWords.
  rewrite test_alts. cbn [existsb]. rewrite !orb_true_iff, !test_wordi.
  assert (HA : test (seqs [wordi "prioriti";
                           Chr (fun c => anyCase 115 c || anyCase 122 c);
                           wordi "e"]) t = true
               <-> includesCI (lit "prioritise") t = true
                   \/ includesCI (lit "prioritize") t = true).
  { rewrite test_spec, !includesCI_sameLetters. split.
    - intros (pre & m & post & E & H). apply Matches_prioritise in H as [H|H];
        [left | right]; now exists pre, m, post.
    - intros [(pre & m & post & E & H) | (pre & m & post & E & H)];
        exists pre, m, post; (split; [exact E|]); apply Matches_prioritise; auto. }
  assert (HC : test (seqs [wordi "order"; Star (Chr dot); wordi "tasks"]) t = true
               <-> OrderThenTasks t).
  { rewrite test_spec. unfold OrderThenTasks. split.
    - intros (pre & m & post & -> & H).
      apply Matches_orderTasks in H as (a & mid & b & -> & H).
      exists pre, a, mid, b, post. split; [|exact H].
      now rewrite <- !app_assoc.
    - intros (pre & a & mid & b & post & -> & H).
      exists pre, (a ++ mid ++ b), post. split.
      + now rewrite <- !app_assoc.
      + apply Matches_orderTasks. now exists a, mid, b. }
  rewrite HA, HC. tauto.
Qed.

(** The classifier as a decision list over the vocabularies. *)
Lemma classifyIntent_decision (s : jsstring) :
  classifyIntent s
  = if test mathPattern s then Math
    else if mentionsAny planWords s then Plan
    else if mentionsAny ideaWords s then Brainstorm
    else if mentionsAny summaryWords s then Summarize
    else if test prioritizePattern s then Prioritize
    else Insight.
Proof.
  unfold classifyIntent, planPattern, summarizePattern.
  now rewrite !test_wordsi, test_brainstormPattern.
Qed.

Lemma not_MathShape (s : jsstring) :
  test mathPattern s = false <-> ~ MathShape s.
Proof.
  rewrite <- test_mathPattern. destruct (test mathPattern s); split;
    congruence.
Qed.

(** X4: without a math shape, the intent is [plan] when the text has one
    of plan, schedule, roadmap, steps, strategy in it (letter case aside);
    else [brainstorm] with idea, brainstorm, creative or name; else
    [summarize] with summarise, summarize, recap or tl;dr. *)
Theorem classifyIntent_keywords (s : jsstring) :
  (classifyIntent s = Plan
   <-> ~ MathShape s /\ mentionsAny planWords s = true)
  /\ (classifyIntent s = Brainstorm
      <-> ~ MathShape s /\ mentionsAny planWords s = false
          /\ mentionsAny ideaWords s = true)
  /\ (classifyIntent s = Summarize
      <-> ~ MathShape s /\ mentionsAny planWords s = false
          /\ mentionsAny ideaWords s = false
          /\ mentionsAny summaryWords s = true).
Proof.
  rewrite classifyIntent_decision, <- not_MathShape.
  destruct (test mathPattern s), (mentionsAny planWords s),
    (mentionsAny ideaWords s), (mentionsAny summaryWords s),
    (test prioritizePattern s);
    repeat split; intros; try discriminate; try tauto;
    repeat match goal with H : _ /\ _ |- _ => destruct H end; congruence.
Qed.

(** X5: the intent is [prioritize] when no earlier rule fires and the text
    has prioritise, prioritize, ranking or what to do first in it, or the
    word order and later on the same line the word tasks; it is [insight]
    exactly when no rule fires. *)
Theorem classifyIntent_fallbacks (s : jsstring) :
  (classifyIntent s = Prioritize
   <-> ~ MathShape s /\ mentionsAny planWords s = false
       /\ mentionsAny ideaWords s = false
       /\ mentionsAny summaryWords s = false
       /\ (mentionsAny rankingWords s = true \/ OrderThenTasks s))
  /\ (classifyIntent s = Insight
      <-> ~ MathShape s /\ mentionsAny planWords s = false
          /\ mentionsAny ideaWords s = false
          /\ mentionsAny summaryWords s = false
          /\ mentionsAny rankingWords s = false
          /\ ~ OrderThenTasks s).
Proof.
  rewrite classifyIntent_decision, <- not_MathShape.
  pose proof (test_prioritizePattern s) as HP.
  destruct (test mathPattern s), (mentionsAny planWords s),
    (mentionsAny ideaWords s), (mentionsAny summaryWords s),
    (test prioritizePattern s) eqn:E;
    split; split; intros; try discriminate;
    repeat match goal with H : _ /\ _ |- _ => destruct H end;
    try congruence.
  all: try (repeat split; try reflexivity; try congruence; tauto).
  all: try (destruct (mentionsAny rankingWords s); intuition congruence).
Qed.

(* ================================================================= *)
(** ** What the dispatcher can and cannot answer *)

Lemma filter_all {A : Type} (p : A -> bool) (l : list A) :
  forallb p l = true -> filter p l = l.
Proof.
  induction l as [|x l IH]; simpl; [reflexivity|]. intros H.
  apply andb_true_iff in H as [Hx Hl]. now rewrite Hx, IH.
Qed.

Lemma isDigit_isMathChar (c : char) : isDigit c = true -> isMathChar c = true.
Proof. intros H. unfold isMathChar. now rewrite H. Qed.

Lemma MathShape_sanitize (t : jsstring) : MathShape t -> MathShape (sanitize t).
Proof.
  intros (pre & d1 & mid & d2 & post & -> & Hd1 & Hd2 & Hne & Hmid).
  exists (filter isMathChar pre), d1, mid, d2, (filter isMathChar post).
  repeat split; auto. rewrite sanitize_filter, filter_app. cbn [filter].
  rewrite (isDigit_isMathChar d1 Hd1), filter_app. cbn [filter].
  now rewrite (isDigit_isMathChar d2 Hd2), (filter_all isMathChar mid Hmid).
Qed.

Lemma classifyIntent_Math_shape (t : jsstring) :
  classifyIntent t = Math -> MathShape t.
Proof. intros H. now apply test_mathPattern, classifyIntent_math. Qed.

(** X6: a text the classifier calls [math] always has an expression to
    evaluate: cleaning keeps the digits and what joins them, and the answer
    is never the message that no expression was detected. *)
Theorem calculateExpression_after_classify {rt : Runtime} (t : jsstring) :
  classifyIntent t = Math ->
  MathShape (sanitize t)
  /\ cleanExpression t = Some (sanitize t)
  /\ calculateExpression t <> noExpressionMessage.
Proof.
  intros H. apply classifyIntent_Math_shape, MathShape_sanitize in H.
  pose proof (MathShape_hasDigit H) as Hd.
  split; [exact H|]. split; [now rewrite cleanExpression_spec, Hd|].
  rewrite (calculateExpression_digit _ Hd).
  destruct (evaluate (sanitize t)) as [v|err]; [|discriminate].
  destruct (finiteNumber v); discriminate.
Qed.

Lemma calculateExpression_after_classify_example :
  cleanExpression (lit "I have 100 apples") = Some (lit "  100 ").
Proof.
  apply (@calculateExpression_after_classify tableRuntime
           (lit "I have 100 apples") eq_refl).
Defined.

Lemma sliceLast_snoc {A : Type} (n : nat) (l : list A) (x : A) :
  sliceLast (S n) (l ++ [x]) = sliceLast n l ++ [x].
Proof.
  unfold sliceLast. rewrite length_app. simpl List.length.
  replace (List.length l + 1 - S n)%nat with (List.length l - n)%nat by lia.
  rewrite skipn_app.
  replace (List.length l - n - List.length l)%nat with 0%nat by lia.
  reflexivity.
Qed.

Lemma summaryOf_shown (shown : list AgentMessage) :
  shown <> [] -> summaryOf shown <> nothingToSummarise.
Proof.
  destruct shown as [|m shown]; [congruence|]. intros _.
  unfold summaryOf. cbn [List.map join]. discriminate.
Qed.

(** X7: when the newest message is not a system message, as in every
    request of the chat, the summary ends with the bullet of that message
    and is never the text that there is nothing to summarise. *)
Theorem summarizeConversation_newest (history : list AgentMessage)
    (m : AgentMessage) :
  isSystem m = false ->
  recentVisible (history ++ [m])
  = filter nonSystem (sliceLast 5 history) ++ [m]
  /\ summarizeConversation (ofMessages (history ++ [m]))
     = Ok (summaryOf (filter nonSystem (sliceLast 5 history) ++ [m]))
  /\ summaryOf (filter nonSystem (sliceLast 5 history) ++ [m])
     <> nothingToSummarise.
Proof.
  intros Hm.
  assert (E : recentVisible (history ++ [m])
              = filter nonSystem (sliceLast 5 history) ++ [m]).
  { unfold recentVisible. rewrite sliceLast_snoc, filter_app. cbn [filter].
    unfold nonSystem at 2. now rewrite Hm. }
  split; [exact E|]. split.
  - now rewrite summarizeConversation_typed, E.
  - apply summaryOf_shown. now destruct (filter nonSystem (sliceLast 5 history)).
Qed.

Lemma summarizeConversation_newest_example :
  recentVisible (noticedHistory ++ [say User "recap"])
  = filter nonSystem (sliceLast 5 noticedHistory) ++ [say User "recap"].
Proof.
  apply (summarizeConversation_newest noticedHistory (say User "recap")).
  reflexivity.
Defined.

Lemma findM_app_found {A : Type} (p : A -> result bool) (l1 l2 : list A) (x : A) :
  findM p l1 = Ok (Some x) -> findM p (l1 ++ l2) = Ok (Some x).
Proof.
  induction l1 as [|y l1 IH]; simpl; [discriminate|].
  destruct (p y) as [[|]|e]; simpl; auto.
Qed.

Lemma respond_ignores_history {rt : Runtime} (intent : Intent)
    (history1 history2 : list json) (userText : jsstring) :
  intent <> Summarize ->
  respond intent history1 userText = respond intent history2 userText.
Proof. destruct intent; intros H; try reflexivity. congruence. Qed.

(** X8: unless the intent is [summarize], the reply depends on the last
    user message alone: the rest of the history, and any values in front
    of it, well formed or not, are never read. *)
Theorem runAgent_last_user_only {rt : Runtime} (front : list json)
    (history : list AgentMessage) (m : AgentMessage) :
  lastUser history = Some m ->
  classifyIntent (trim (content m)) <> Summarize ->
  runAgent (front ++ ofMessages history) = runAgent (ofMessages [m]).
Proof.
  intros Hl Hi. unfold lastUser in Hl.
  assert (Hu : isUser m = true) by (now apply find_some in Hl).
  assert (Hf : findM (fun message => r <- getProp message "role" ;;
                                     Ok (isString "user" r))
                     (rev (front ++ ofMessages history))
               = Ok (Some (ofMessage m))).
  { rewrite rev_app_distr. apply findM_app_found.
    unfold ofMessages. rewrite <- map_rev. fold (ofMessages (rev history)).
    now rewrite findM_user, Hl. }
  unfold runAgent at 1. rewrite Hf. cbn [bind].
  rewrite getProp_content. cbn [bind stringReceiver].
  rewrite (respond_ignores_history _ _ (ofMessages [m]) _ Hi).
  unfold runAgent. cbn [ofMessages List.map rev app findM].
  rewrite getProp_role. cbn [bind]. rewrite isString_user, Hu. cbn [bind].
  rewrite getProp_content. reflexivity.
Qed.

Lemma runAgent_last_user_only_example :
  @runAgent tableRuntime
    ([JNull; JNumber 7]
     ++ ofMessages [say User "hello"; say User "What is 2+2?"; say System "note"])
  = @runAgent tableRuntime (ofMessages [say User "What is 2+2?"]).
Proof.
  apply (@runAgent_last_user_only tableRuntime [JNull; JNumber 7]
           [say User "hello"; say User "What is 2+2?"; say System "note"]
           (say User "What is 2+2?"));
    [reflexivity | vm_compute; discriminate].
Defined.

Lemma allDistinct_NoDup (l : list jsstring) : allDistinct l = true -> NoDup l.
Proof.
  induction l as [|x l IH]; simpl; [constructor|]. intros H.
  apply andb_true_iff in H as [Hx Hl]. constructor; [|now apply IH].
  intros Hin. apply negb_true_iff in Hx.
  assert (existsb (str_eqb x) l = true)
    by (apply existsb_exists; exists x; split; [exact Hin | now apply str_eqb_eq]).
  congruence.
Qed.

Lemma respond_step_title {rt : Runtime} (intent : Intent)
    (history : list AgentMessage) (userText : jsstring) :
  exists st, respond intent (ofMessages history) userText
             = Ok (contentOf intent history userText, st)
             /\ In (title st) methodTitles.
Proof.
  destruct intent; simpl;
    try (eexists; split; [reflexivity | simpl; tauto]).
  - rewrite summarizeConversation_typed. eexists.
    split; [reflexivity | simpl; tauto].
  - destruct (matchKnowledge userText) as [advice|] eqn:E;
      [|eexists; split; [reflexivity | simpl; tauto]].
    apply matchKnowledge_nonempty in E.
    destruct advice; [congruence|].
    eexists; split; [reflexivity | simpl; tauto].
Qed.

(** X9: in every reply the titles of the steps are pairwise different,
    and so are the suggestions: the message bubble uses them as the keys of
    the elements it renders. *)
Theorem runAgent_distinct_keys {rt : Runtime} (history : list AgentMessage) :
  exists reply,
    runAgent (ofMessages history) = Ok reply
    /\ NoDup (List.map title (steps reply))
    /\ NoDup (suggestions reply).
Proof.
  unfold runAgent, ofMessages. rewrite <- map_rev.
  fold (ofMessages (rev history)). rewrite findM_user. cbn [bind].
  destruct (find isUser (rev history)) as [m|]; cbn [option_map].
  - rewrite getProp_content. cbn [bind stringReceiver].
    fold (ofMessages history).
    destruct (respond_step_title (classifyIntent (trim (content m))) history
                                 (trim (content m))) as (st & -> & Ht).
    eexists. split; [reflexivity|]. cbn [steps suggestions List.map bind fst snd].
    split.
    + apply allDistinct_NoDup.
      simpl in Ht. destruct Ht as [<-|[<-|[<-|[<-|[]]]]]; reflexivity.
    + apply allDistinct_NoDup.
      destruct (classifyIntent (trim (content m))); reflexivity.
  - eexists. split; [reflexivity|].
    split; apply allDistinct_NoDup; reflexivity.
Qed.

(* ================================================================= *)
(** ** Ranking requests always name a task *)

Lemma includesCI_suffix (w v t : jsstring) :
  includesCI (w ++ v) t = true -> includesCI v t = true.
Proof.
  rewrite !includesCI_sameLetters. intros (pre & m & post & -> & E).
  exists (pre ++ firstn (List.length w) m), (skipn (List.length w) m), post.
  split.
  - rewrite <- app_assoc. f_equal. now rewrite app_assoc, firstn_skipn.
  - unfold sameLetters in *. rewrite <- skipn_map, E, map_app.
    rewrite <- (length_map canon w), skipn_app, Nat.sub_diag, skipn_all.
    reflexivity.
Qed.

Lemma splitOn_head (sep : char -> bool) (w post : jsstring) :
  forallb (fun c => negb (sep c)) w = true ->
  exists b ps, splitOn sep (w ++ post) = (w ++ b) :: ps.
Proof.
  induction w as [|c w IH]; simpl; intros H.
  - destruct (splitOn sep post) as [|b ps] eqn:E.
    + now apply splitOn_nonempty in E.
    + now exists b, ps.
  - apply andb_true_iff in H as [Hc Hw]. apply negb_true_iff in Hc.
    rewrite Hc. destruct (IH Hw) as (b & ps & ->). now exists b, ps.
Qed.

Lemma splitOn_contains (sep : char -> bool) (pre w post : jsstring) :
  forallb (fun c => negb (sep c)) w = true ->
  exists p a b, In p (splitOn sep (pre ++ w ++ post)) /\ p = a ++ w ++ b.
Proof.
  intros Hw. induction pre as [|c pre (p & a & b & Hin & ->)].
  - destruct (splitOn_head sep w post Hw) as (b & ps & E).
    exists (w ++ b), [], b. simpl. rewrite E. split; [now left | reflexivity].
  - simpl. destruct (sep c).
    + exists (a ++ w ++ b), a, b. split; [now right | reflexivity].
    + destruct (splitOn sep (pre ++ w ++ post)) as [|q qs]; [destruct Hin|].
      destruct Hin as [->|Hin].
      * exists (c :: a ++ w ++ b), (c :: a), b. split; [now left | reflexivity].
      * exists (a ++ w ++ b), a, b. split; [now right | reflexivity].
Qed.

Lemma trimStart_keeps (a w b : jsstring) (c : char) :
  isSpace c = false ->
  exists a', trimStart (a ++ (c :: w) ++ b) = a' ++ (c :: w) ++ b.
Proof.
  intros Hc. rewrite trimStart_app. destruct (trimStart a) as [|x u].
  - exists []. simpl. now rewrite Hc.
  - now exists (x :: u).
Qed.

Lemma trim_keeps (a w b : jsstring) :
  w <> [] -> forallb (fun c => negb (isSpace c)) w = true ->
  exists a' b', trim (a ++ w ++ b) = a' ++ w ++ b'.
Proof.
  intros Hne Hw. destruct w as [|c w]; [congruence|].
  assert (Hc : isSpace c = false).
  { simpl in Hw. apply andb_true_iff in Hw as [Hc _]. now apply negb_true_iff. }
  unfold trim. destruct (trimStart_keeps a w b c Hc) as (a' & ->).
  unfold trimEnd.
  destruct (rev (c :: w)) as [|d v] eqn:R.
  { apply (f_equal (@List.length char)) in R. rewrite length_rev in R.
    discriminate R. }
  assert (Hd : isSpace d = false).
  { rewrite forallb_forall in Hw. apply negb_true_iff, Hw, in_rev.
    rewrite R. now left. }
  rewrite !rev_app_distr, R, <- app_assoc.
  destruct (trimStart_keeps (rev b) v (rev a') d Hd) as (b' & ->).
  exists a', (rev b'). rewrite !rev_app_distr, rev_involutive, <- R.
  now rewrite rev_involutive, <- app_assoc.
Qed.

Lemma isSolid_parts (w : jsstring) :
  forallb isSolid w = true ->
  forallb (fun c => negb (isSpace c)) w = true
  /\ forallb (fun c => negb (isTaskSeparator c)) w = true.
Proof.
  unfold isSolid. rewrite !forallb_forall. intros H. split; intros c Hc;
    apply H, andb_true_iff in Hc; tauto.
Qed.

(** A word of five or more solid characters makes a candidate task. *)
Lemma solid_word_task (pre w post : jsstring) :
  forallb isSolid w = true -> (4 < List.length w)%nat ->
  taskLines (pre ++ w ++ post) <> [].
Proof.
  intros Hw Hl. apply isSolid_parts in Hw as [Hspace Hsep].
  destruct (splitOn_contains isTaskSeparator pre w post Hsep)
    as (p & a & b & Hin & ->).
  assert (Hne : w <> []) by (destruct w; [simpl in Hl; lia | discriminate]).
  destruct (trim_keeps a w b Hne Hspace) as (a' & b' & E).
  assert (Ht : In (trim (a ++ w ++ b)) (taskLines (pre ++ w ++ post))).
  { unfold taskLines. apply filter_In. split.
    - now apply in_map.
    - apply Nat.ltb_lt. rewrite E, !length_app. lia. }
  intros E0. now rewrite E0 in Ht.
Qed.

Lemma letter_isSolid (c : char) :
  65 <= canon c <= 90 -> isSolid c = true.
Proof.
  intros H.
  assert (Hc : 65 <= c <= 122) by (destruct (canon_cases c) as [E|[Hc E]]; lia).
  unfold isSolid. rewrite isSpace_printable by lia.
  unfold isTaskSeparator. simpl.
  repeat match goal with
         | |- context [c =? ?k] => destruct (N.eqb_spec c k); [lia|]
         end.
  reflexivity.
Qed.

Lemma sameLetters_solid (w word : jsstring) :
  sameLetters w word ->
  forallb (fun k => (65 <=? canon k) && (canon k <=? 90)) word = true ->
  forallb isSolid w = true /\ List.length w = List.length word.
Proof.
  unfold sameLetters. revert word.
  induction w as [|c w IH]; intros [|k word] E H; try discriminate E;
    [now split|].
  simpl in E, H. injection E as Ec Ew.
  apply andb_true_iff in H as [Hk Hword].
  apply andb_true_iff in Hk as [Hlo Hhi]. apply N.leb_le in Hlo, Hhi.
  destruct (IH word Ew Hword) as [Hs Hl]. split.
  - simpl. rewrite letter_isSolid by (rewrite Ec; lia). exact Hs.
  - simpl. now rewrite Hl.
Qed.

Lemma includesCI_word_task (word : string) (t : jsstring) :
  forallb (fun k => (65 <=? canon k) && (canon k <=? 90)) (lit word) = true ->
  (4 < List.length (lit word))%nat ->
  includesCI (lit word) t = true -> taskLines t <> [].
Proof.
  intros Hword Hlen H.
  apply includesCI_sameLetters in H as (pre & m & post & -> & E).
  destruct (sameLetters_solid m (lit word) E Hword) as [Hs Hl].
  apply solid_word_task; [exact Hs | lia].
Qed.

Lemma prioritizePattern_task (t : jsstring) :
  test prioritizePattern t = true -> taskLines t <> [].
Proof.
  intros H. apply test_prioritizePattern in H as [H|H].
  - unfold mentionsAny, rankingWords in H. cbn [existsb] in H.
    rewrite !orb_true_iff in H. destruct H as [H|[H|[H|[H|H]]]];
      [| | | |discriminate H].
    + apply (includesCI_prefix (lit "prior") (lit "itise")) in H.
      apply (includesCI_word_task "prior"); [reflexivity | simpl; lia | exact H].
    + apply (includesCI_prefix (lit "prior") (lit "itize")) in H.
      apply (includesCI_word_task "prior"); [reflexivity | simpl; lia | exact H].
    + apply (includesCI_prefix (lit "ranki") (lit "ng")) in H.
      apply (includesCI_word_task "ranki"); [reflexivity | simpl; lia | exact H].
    + apply (includesCI_suffix (lit "what to do ") (lit "first")) in H.
      apply (includesCI_word_task "first"); [reflexivity | simpl; lia | exact H].
  - destruct H as (pre & a & mid & b & post & -> & Ha & _).
    apply (includesCI_word_task "order"); [reflexivity | simpl; lia |].
    apply includesCI_sameLetters. now exists pre, a, (mid ++ b ++ post).
Qed.

Lemma rankedTasks_nonempty (lines : list jsstring) :
  lines <> [] -> rankedTasks lines <> [].
Proof.
  intros Hne E. pose proof (rankedTasks_perm lines) as P. rewrite E in P.
  apply Permutation_nil in P. destruct lines; [congruence | discriminate P].
Qed.

(** X10: a text the classifier calls [prioritize] always names a task:
    one of the words that trigger the intent sits in a candidate longer
    than 4, so the answer is a ranking, never the request to provide a
    list. *)
Theorem prioritiseTasks_after_classify (t : jsstring) :
  classifyIntent t = Prioritize ->
  taskLines t <> [] /\ prioritiseTasks t <> noTasksMessage.
Proof.
  intros H.
  assert (Ht : test prioritizePattern t = true).
  { rewrite classifyIntent_decision in H.
    destruct (test mathPattern t), (mentionsAny planWords t),
      (mentionsAny ideaWords t), (mentionsAny summaryWords t),
      (test prioritizePattern t); try discriminate H; reflexivity. }
  apply prioritizePattern_task in Ht. split; [exact Ht|].
  unfold prioritiseTasks. destruct (taskLines t) as [|l ls] eqn:E; [congruence|].
  destruct (rankedTasks (l :: ls)) as [|r rs] eqn:R.
  { now apply rankedTasks_nonempty in R. }
  unfold mapi. cbn [mapiFrom]. unfold renderRanked at 1.
  change (intToString (0 + 1)) with [49].
  destruct (mapiFrom renderRanked (0 + 1) rs); discriminate.
Qed.

Lemma prioritiseTasks_after_classify_example :
  taskLines (lit "what to do first: a, b, c") <> []
  /\ prioritiseTasks (lit "what to do first: a, b, c") <> noTasksMessage.
Proof.
  apply (prioritiseTasks_after_classify (lit "what to do first: a, b, c")).
  reflexivity.
Defined.

(* ================================================================= *)
(** ** The ranked items and the lines of a ranking *)

Lemma mapiFrom_In_nth {A B : Type} (f : A -> Z -> B) (l : list A) (y : B) :
  forall i, In y (mapiFrom f i l) ->
            exists n x, nth_error l n = Some x /\ y = f x (i + Z.of_nat n)%Z.
Proof.
  induction l as [|x l IH]; intros i; simpl; [tauto|]. intros [<-|H].
  - exists 0%nat, x. split; [reflexivity | now rewrite Z.add_0_r].
  - apply IH in H as (n & x' & Hn & ->). exists (S n), x'.
    split; [exact Hn | f_equal; lia].
Qed.

Lemma mapiFrom_length {A B : Type} (f : A -> Z -> B) (l : list A) :
  forall i, List.length (mapiFrom f i l) = List.length l.
Proof. induction l as [|x l IH]; intros i; simpl; [reflexivity | now rewrite IH]. Qed.

Lemma taskLines_clean (input t : jsstring) :
  In t (taskLines input) ->
  isTrimmed t = true
  /\ forallb (fun c => negb (isTaskSeparator c)) t = true
  /\ (4 < List.length t)%nat.
Proof.
  unfold taskLines. intros H. apply filter_In in H as [H Hl].
  apply in_map_iff in H as (p & <- & Hp).
  split; [apply trim_isTrimmed|]. split; [|now apply Nat.ltb_lt].
  apply forallb_trim.
  pose proof (splitOn_pieces isTaskSeparator input) as F.
  rewrite Forall_forall in F. now apply F.
Qed.

Lemma score_values (t : jsstring) (i : Z) :
  In (score (rankTask t i)) [3; 4; 5; 7; 8; 9]%Z.
Proof.
  unfold rankTask, urgencyScore, impactScore. cbn [score].
  destruct (test urgencyPattern t), (test highImpactPattern t),
    (test mediumImpactPattern t); simpl; tauto.
Qed.

(** X11: every ranked item is a candidate of the input at the position
    its index tells, trimmed and free of separators, and its score is one
    of 3, 4, 5, 7, 8 and 9. *)
Theorem rankedTasks_items (input : jsstring) (item : RankedTask) :
  In item (rankedTasks (taskLines input)) ->
  nth_error (taskLines input) (Z.to_nat (index item)) = Some (task item)
  /\ (0 <= index item < Z.of_nat (List.length (taskLines input)))%Z
  /\ trim (task item) = task item
  /\ forallb (fun c => negb (isTaskSeparator c)) (task item) = true
  /\ In (score item) [3; 4; 5; 7; 8; 9]%Z.
Proof.
  intros H.
  apply (Permutation_in _ (rankedTasks_perm (taskLines input))) in H.
  apply mapiFrom_In_nth in H as (n & t & Hn & ->). cbn [task index rankTask].
  rewrite Z.add_0_l, Nat2Z.id.
  assert (Hin : In t (taskLines input)) by (eapply nth_error_In; eauto).
  destruct (taskLines_clean input t Hin) as (Ht & Hs & _).
  split; [exact Hn|]. split.
  { assert (n < List.length (taskLines input))%nat
      by (apply nth_error_Some; congruence).
    lia. }
  split; [now apply trim_fixed|]. split; [exact Hs | apply score_values].
Qed.

Lemma rankedTasks_items_example :
  nth_error (taskLines (lit "Draft email, Launch campaign today")) 1
  = Some (lit "Launch campaign today").
Proof.
  apply (rankedTasks_items (lit "Draft email, Launch campaign today")
           {| task := lit "Launch campaign today"; score := 9; index := 1 |}).
  vm_compute. now left.
Defined.

Lemma noNewline_uintChars (d : Decimal.uint) : noNewline (uintChars d) = true.
Proof. induction d; simpl; auto. Qed.

Lemma noNewline_intToString (z : Z) : noNewline (intToString z) = true.
Proof.
  unfold intToString. destruct (Z.to_int z); simpl; apply noNewline_uintChars.
Qed.

Lemma noNewline_no_separator (t : jsstring) :
  forallb (fun c => negb (isTaskSeparator c)) t = true -> noNewline t = true.
Proof.
  unfold noNewline. rewrite !forallb_forall. intros H c Hc.
  specialize (H c Hc). destruct (N.eqb_spec c newline) as [->|]; [|reflexivity].
  discriminate H.
Qed.

Lemma noNewline_renderRanked (item : RankedTask) (position : Z) :
  noNewline (task item) = true -> noNewline (renderRanked item position) = true.
Proof.
  intros H. unfold renderRanked.
  now rewrite !noNewline_app, !noNewline_intToString, H.
Qed.

Lemma noNewline_mapiFrom (items : list RankedTask) :
  Forall (fun item => noNewline (task item) = true) items ->
  forall i, forallb noNewline (mapiFrom renderRanked i items) = true.
Proof.
  induction 1 as [|item items Hi _ IH]; intros i; simpl; [reflexivity|].
  now rewrite noNewline_renderRanked, IH.
Qed.

(** X12: a ranking has one line per candidate task: the text splits back
    into the rendered items, as many as the candidates. *)
Theorem prioritiseTasks_lines (input : jsstring) :
  taskLines input <> [] ->
  linesOf (prioritiseTasks input)
  = mapi renderRanked (rankedTasks (taskLines input))
  /\ List.length (linesOf (prioritiseTasks input))
     = List.length (taskLines input).
Proof.
  intros Hne.
  assert (E : prioritiseTasks input
              = join [newline] (mapi renderRanked (rankedTasks (taskLines input)))).
  { unfold prioritiseTasks. now destruct (taskLines input). }
  assert (L : linesOf (prioritiseTasks input)
              = mapi renderRanked (rankedTasks (taskLines input))).
  { rewrite E. apply linesOf_join.
    - apply rankedTasks_nonempty in Hne. unfold mapi.
      destruct (rankedTasks (taskLines input)); [congruence | discriminate].
    - apply noNewline_mapiFrom. apply Forall_forall. intros item Hin.
      apply (Permutation_in _ (rankedTasks_perm (taskLines input))) in Hin.
      apply mapiFrom_rankTask_In in Hin as (t & j & Ht & ->).
      apply noNewline_no_separator. now apply (taskLines_clean input). }
  split; [exact L|]. rewrite L. unfold mapi. rewrite mapiFrom_length.
  rewrite (Permutation_length (rankedTasks_perm (taskLines input))).
  apply mapiFrom_length.
Qed.

Lemma prioritiseTasks_lines_example :
  List.length (linesOf (prioritiseTasks (lit "Draft email, Launch campaign today")))
  = List.length (taskLines (lit "Draft email, Launch campaign today")).
Proof.
  apply (prioritiseTasks_lines (lit "Draft email, Launch campaign today")).
  vm_compute. discriminate.
Defined.

(* ================================================================= *)
(** ** The knowledge base *)

(** X13: the knowledge lookup is a decision list over three vocabularies,
    letter case aside: the first entry that has one of its words in the
    text gives the advice, and a text with none of them gives none. *)
Theorem matchKnowledge_table (t : jsstring) :
  matchKnowledge t
  = if mentionsAny ["productivity"; "focus"; "deep work"]%string t
    then adviceOf 0
    else if mentionsAny ["marketing"; "campaign"; "launch"]%string t
    then adviceOf 1
    else if mentionsAny ["learning"; "study"; "exam"]%string t
    then adviceOf 2
    else None.
Proof.
  unfold matchKnowledge, KNOWLEDGE_BASE. cbn [find triggers existsb].
  rewrite !test_wordsi, !orb_false_r.
  destruct (mentionsAny ["productivity"; "focus"; "deep work"]%string t);
    [reflexivity|].
  destruct (mentionsAny ["marketing"; "campaign"; "launch"]%string t);
    [reflexivity|].
  destruct (mentionsAny ["learning"; "study"; "exam"]%string t); reflexivity.
Qed.

(* ================================================================= *)
(** ** Plans and idea lists *)

Lemma startsWith_app (w rest : jsstring) : startsWith w (w ++ rest) = true.
Proof.
  induction w as [|c w IH]; simpl; [reflexivity|]. now rewrite N.eqb_refl.
Qed.

(** X14: for a goal on one line the plan has five lines, numbered 1 to 5,
    and the idea list has four, numbered 1 to 4; both quote the trimmed
    text, so white space around it changes nothing. *)
Theorem buildPlan_lines (text : jsstring) :
  noNewline (trim text) = true ->
  List.length (linesOf (buildPlan text)) = 5%nat
  /\ List.length (linesOf (brainstormIdeas text)) = 4%nat
  /\ (forall k line,
        nth_error (linesOf (buildPlan text)) k = Some line
        \/ nth_error (linesOf (brainstormIdeas text)) k = Some line ->
        startsWith (intToString (Z.of_nat k + 1) ++ lit ". ") line = true)
  /\ buildPlan (trim text) = buildPlan text
  /\ brainstormIdeas (trim text) = brainstormIdeas text.
Proof.
  intros H.
  assert (P : linesOf (buildPlan text)
              = mapi numbered
                  [ lit "Clarify the true objective and define a measurable finish line for "
                      ++ [dquote] ++ trim text ++ [dquote] ++ lit ".";
                    lit "List the constraints (time, budget, collaborators) so we can work within them.";
                    lit "Break the work into 3-5 atomic actions that can each be completed in one sitting.";
                    lit "Sequence the actions by impact and dependency, then block time for the first step.";
                    lit "Create a feedback hook " ++ [emdash]
                      ++ lit " what evidence will tell us we can adjust or stop?" ]).
  { unfold buildPlan. apply linesOf_join; [discriminate|].
    unfold mapi, numbered. cbn [mapiFrom forallb].
    rewrite !noNewline_app, !noNewline_intToString, H. reflexivity. }
  assert (B : linesOf (brainstormIdeas text)
              = mapi (fun angle idx =>
                        intToString (idx + 1) ++ lit ". " ++ angle ++ lit " "
                        ++ [emdash] ++ lit " specifically for " ++ [dquote]
                        ++ trim text ++ [dquote]
                        ++ lit ". Think about what would feel refreshing compared to the status quo.")
                  [ lit "Unexpected partnerships or audiences";
                    lit "Moments in the customer journey you can delight";
                    lit "Small experiments you can ship this week";
                    lit "Signals that prove the idea is working" ]).
  { unfold brainstormIdeas. apply linesOf_join; [discriminate|].
    unfold mapi. cbn [mapiFrom forallb].
    rewrite !noNewline_app, !noNewline_intToString, H. reflexivity. }
  split; [now rewrite P|]. split; [now rewrite B|]. split.
  - intros k line. rewrite P, B. unfold mapi, numbered. cbn [mapiFrom].
    intros [Hk|Hk];
      do 5 (try (destruct k as [|k];
                 [ cbn [nth_error] in Hk;
                   first [ discriminate Hk
                         | injection Hk as <-;
                           first [apply startsWith_app | reflexivity] ]
                 | cbn [nth_error] in Hk ]));
      destruct k; discriminate Hk.
  - unfold buildPlan, brainstormIdeas. now rewrite trim_idempotent.
Qed.

Lemma buildPlan_lines_example :
  List.length (linesOf (buildPlan (lit "  plan my week "))) = 5%nat.
Proof.
  apply (buildPlan_lines (lit "  plan my week ")). reflexivity.
Defined.

(* ================================================================= *)
(** ** The summary of raw histories *)

Lemma sliceLast_idempotent {A : Type} (n : nat) (l : list A) :
  sliceLast n (sliceLast n l) = sliceLast n l.
Proof.
  destruct (sliceLast_suffix n l) as (older & _ & L).
  unfold sliceLast at 1. rewrite L.
  replace (Nat.min n (List.length l) - n)%nat with 0%nat by lia.
  reflexivity.
Qed.

Lemma filterM_throw {A : Type} (p : A -> result bool) (l : list A) (x : A)
    (e : exn) :
  In x l -> p x = Throw e ->
  (forall y e', p y = Throw e' -> e' = e) ->
  filterM p l = Throw e.
Proof.
  intros Hin Hx Hp. induction l as [|y l IH]; [destruct Hin|].
  simpl. destruct (p y) as [b|e'] eqn:Ey.
  - simpl. destruct Hin as [->|Hin]; [congruence|].
    now rewrite (IH Hin).
  - simpl. f_equal. now apply Hp in Ey.
Qed.

(** X15: only the last six values of a history reach the summary, however
    the older ones are made; a [null] among the last six makes it throw a
    [TypeError]. *)
Theorem summarizeConversation_window (history : list json) :
  summarizeConversation history
  = summarizeConversation (sliceLast 6 history)
  /\ (In JNull (sliceLast 6 history) ->
      summarizeConversation history = Throw TypeError).
Proof.
  split.
  - unfold summarizeConversation. now rewrite sliceLast_idempotent.
  - intros H. unfold summarizeConversation.
    rewrite (filterM_throw _ _ JNull TypeError H); [reflexivity | reflexivity |].
    intros y e'. destruct y; simpl; congruence.
Qed.

Lemma summarizeConversation_window_example :
  summarizeConversation
    ([JNull; JBool true] ++ ofMessages noticedHistory ++ [JNull])
  = Throw TypeError.
Proof.
  apply (summarizeConversation_window
           ([JNull; JBool true] ++ ofMessages noticedHistory ++ [JNull])).
  vm_compute. tauto.
Defined.

(* ================================================================= *)
(** ** The route, seen from the chat *)

(** Whatever values the history holds, a reply of the dispatcher is the
    idle reply or the reply to a user message. *)
Lemma runAgent_reply_shape {rt : Runtime} (items : list json)
    (reply : AgentReply) :
  runAgent items = Ok reply ->
  replyRole reply = Assistant
  /\ List.length (suggestions reply) = 3%nat
  /\ (List.length (steps reply) = 1%nat \/ List.length (steps reply) = 3%nat).
Proof.
  unfold runAgent.
  destruct (findM _ (rev items)) as [[last|]|err]; cbn [bind];
    [| intros H; injection H as <-; simpl; auto | discriminate].
  destruct (getProp last "content") as [c|err]; cbn [bind]; [|discriminate].
  destruct (stringReceiver c) as [text|err]; cbn [bind]; [|discriminate].
  destruct (respond _ items (trim text)) as [answer|err]; cbn [bind];
    [|discriminate].
  intros H. injection H as <-. cbn [replyRole suggestions steps].
  rewrite followUpSuggestions_length. simpl. auto.
Qed.

(** X16: whatever the request, even one that is no JSON or whose messages
    are ill formed, the handler answers with status 200 and a reply of the
    assistant with three suggestions and one or three steps, or with one of
    its two fixed errors, and nothing else. *)
Theorem POST_shape {rt : Runtime} (requestJson : result json) :
  (exists reply,
     POST requestJson = {| status := 200; body := ReplyBody reply |}
     /\ replyRole reply = Assistant
     /\ List.length (suggestions reply) = 3%nat
     /\ (List.length (steps reply) = 1%nat
         \/ List.length (steps reply) = 3%nat))
  \/ POST requestJson = badRequest
  \/ POST requestJson = serverError.
Proof.
  unfold POST. destruct requestJson as [parsed|err]; [|now right; right].
  rewrite handle_parsed.
  destruct (nullish (messagesField parsed) (JArray [])) as [| | | |items|];
    try (now right; left).
  destruct items as [|x items]; [now right; left|].
  destruct (runAgent (x :: items)) as [reply|err] eqn:E; simpl.
  - left. exists reply. split; [reflexivity|].
    now apply (runAgent_reply_shape (x :: items)).
  - now right; right.
Qed.

Lemma lastUser_snoc (history : list AgentMessage) (u : AgentMessage) :
  isUser u = true -> lastUser (history ++ [u]) = Some u.
Proof.
  intros H. unfold lastUser. rewrite rev_app_distr. simpl. now rewrite H.
Qed.

Lemma serverFetch_reply {rt : Runtime} (request : list AgentMessage) :
  request <> [] ->
  exists reply, runAgent (ofMessages request) = Ok reply
                /\ serverFetch request = Some reply.
Proof.
  intros Hne. destruct (runAgent_returns request) as (reply & Hr).
  exists reply. split; [exact Hr|].
  unfold serverFetch, POST. rewrite handle_parsed.
  change (messagesField (requestOf request))
    with (Some (JArray (ofMessages request))).
  cbn [nullish]. destruct request as [|m request]; [congruence|].
  cbn [ofMessages List.map] in *. now rewrite Hr.
Qed.

(** X17: a submitted prompt is answered: with the route as the server, a
    submission that passes the guard appends the user's trimmed text and
    the dispatcher's reply to it, whose content is the text of the
    generator for the detected intent; the glitch message is never shown. *)
Theorem handleSubmit_exchange {rt : Runtime} (userId replyId : jsstring)
    (st : ChatState) :
  pending st = false -> trim (input st) <> [] ->
  exists reply,
    runAgent (ofMessages (roundedMessages st
                          ++ [{| role := User; content := trim (input st) |}]))
    = Ok reply
    /\ replyContent reply
       = contentOf (classifyIntent (trim (input st)))
                   (roundedMessages st
                    ++ [{| role := User; content := trim (input st) |}])
                   (trim (input st))
    /\ handleSubmit userId replyId serverFetch st
       = {| messages := messages st
                        ++ [userMessage userId (trim (input st));
                            replyMessage replyId reply];
            input := [];
            pending := false |}.
Proof.
  intros Hp Hin.
  set (request := roundedMessages st
                  ++ [{| role := User; content := trim (input st) |}]).
  assert (Hne : request <> []) by (subst request; now destruct (roundedMessages st)).
  destruct (serverFetch_reply request Hne) as (reply & Hr & Hf).
  exists reply. split; [exact Hr|]. split.
  - pose proof (runAgent_typed request) as Ht. subst request.
    rewrite lastUser_snoc in Ht by reflexivity.
    destruct Ht as (s0 & Ht). rewrite Hr in Ht. injection Ht as ->.
    cbn [replyContent content]. now rewrite trim_idempotent.
  - unfold handleSubmit, beginSubmit. rewrite Hp.
    destruct (trim (input st)) as [|c text] eqn:E; [congruence|].
    fold request. rewrite Hf. unfold finishSubmit. cbn [messages input].
    now rewrite <- app_assoc.
Qed.

Lemma handleSubmit_exchange_example :
  exists reply,
    handleSubmit (lit "u1") (lit "a1") (@serverFetch tableRuntime)
      (setInput (lit " What is 2+2? ") (initialState (lit "a0")))
    = {| messages := messages (initialState (lit "a0"))
                     ++ [userMessage (lit "u1") (lit "What is 2+2?");
                         replyMessage (lit "a1") reply];
         input := [];
         pending := false |}.
Proof.
  destruct (@handleSubmit_exchange tableRuntime (lit "u1") (lit "a1")
              (setInput (lit " What is 2+2? ") (initialState (lit "a0")))
              eq_refl)
    as (reply & _ & _ & E); [discriminate|].
  exists reply. exact E.
Defined.

(** X18: while a request is in flight nothing else starts: after the first
    part of a submission the state is pending, the request ends with the
    user's message, and neither a second submission nor a sample prompt
    changes the state. *)
Theorem beginSubmit_locks (newId : jsstring) (st st' : ChatState)
    (request : list AgentMessage) :
  beginSubmit newId st = Some (st', request) ->
  pending st' = true
  /\ request = roundedMessages st
               ++ [{| role := User; content := trim (input st) |}]
  /\ roundedMessages st' = request
  /\ (forall otherId, beginSubmit otherId st' = None)
  /\ (forall prompt, handlePromptSelect prompt st' = st').
Proof.
  unfold beginSubmit. destruct (trim (input st)) as [|c text] eqn:E;
    [discriminate|].
  destruct (pending st); [discriminate|]. intros H. injection H as <- <-.
  repeat split.
  unfold roundedMessages. cbn [messages]. now rewrite map_app.
Qed.

Lemma beginSubmit_locks_example :
  beginSubmit (lit "u2")
    {| messages := messages (initialState (lit "a0"))
                   ++ [userMessage (lit "u1") (lit "hello")];
       input := [];
       pending := true |}
  = None.
Proof.
  apply (proj1 (proj2 (proj2 (proj2
           (beginSubmit_locks (lit "u1")
              (setInput (lit " hello") (initialState (lit "a0"))) _ _
              eq_refl))))).
Defined.

(* ================================================================= *)
(** ** The conversation of the chat *)

Lemma exchangesBy_app (reply : ConversationMessage -> bool)
    (l l' : list ConversationMessage) :
  exchangesBy reply l = true ->
  exchangesBy reply (l ++ l') = exchangesBy reply l'.
Proof.
  revert l. fix IH 1. intros [|u [|a rest]]; simpl; intros H.
  - reflexivity.
  - discriminate H.
  - apply andb_true_iff in H as [H Hrest]. rewrite H. simpl.
    now apply IH.
Qed.

Lemma exchangesBy_turns (reply : ConversationMessage -> bool)
    (l : list ConversationMessage) (roles : list AgentRole) :
  (forall m, reply m = true -> msgRole m = Assistant) ->
  exchangesBy reply l = true ->
  takesTurns false (List.map msgRole l ++ roles) = takesTurns false roles.
Proof.
  intros Hr. revert l. fix IH 1. intros [|u [|a rest]]; simpl; intros H.
  - reflexivity.
  - discriminate H.
  - apply andb_true_iff in H as [H Hrest].
    apply andb_true_iff in H as [Hu Ha].
    unfold isUserTurn in Hu. apply Hr in Ha.
    destruct (msgRole u); try discriminate Hu. rewrite Ha. simpl.
    now apply IH.
Qed.

Lemma isAnswer_role (m : ConversationMessage) :
  isAnswer m = true -> msgRole m = Assistant.
Proof.
  unfold isAnswer, isServerReply, isGlitch. intros H.
  destruct (msgRole m); try reflexivity; simpl in H; discriminate H.
Qed.

Lemma beginSubmit_passes (newId : jsstring) (st : ChatState) :
  pending st = false -> trim (input st) <> [] ->
  beginSubmit newId st
  = Some ({| messages := messages st ++ [userMessage newId (trim (input st))];
             input := [];
             pending := true |},
          roundedMessages st
          ++ [{| role := User; content := trim (input st) |}]).
Proof.
  intros Hp Hin. unfold beginSubmit. rewrite Hp.
  now destruct (trim (input st)).
Qed.

Lemma beginSubmit_refuses (newId : jsstring) (st : ChatState) :
  pending st = true \/ trim (input st) = [] -> beginSubmit newId st = None.
Proof.
  unfold beginSubmit. intros [H|H]; rewrite H; [|reflexivity].
  now destruct (trim (input st)).
Qed.

(** The route answers a request that ends with a user message by a reply
    of the assistant with three steps and three suggestions. *)
Lemma serverFetch_answers {rt : Runtime} (history : list AgentMessage)
    (u : AgentMessage) :
  isUser u = true ->
  exists reply,
    serverFetch (history ++ [u]) = Some reply
    /\ replyRole reply = Assistant
    /\ List.length (steps reply) = 3%nat
    /\ List.length (suggestions reply) = 3%nat.
Proof.
  intros Hu.
  assert (Hne : history ++ [u] <> []) by now destruct history.
  destruct (serverFetch_reply (history ++ [u]) Hne) as (reply & Hr & Hf).
  exists reply. split; [exact Hf|].
  pose proof (runAgent_typed (history ++ [u])) as Ht.
  rewrite (lastUser_snoc history u Hu) in Ht. destruct Ht as (s0 & Ht).
  rewrite Hr in Ht. injection Ht as ->.
  cbn [replyRole steps suggestions].
  now rewrite followUpSuggestions_length.
Qed.

Lemma chatStep_keeps {rt : Runtime} (reply : ConversationMessage -> bool)
    (base : list ConversationMessage) (s : ChatSession) (e : ChatEvent)
    (added : list ConversationMessage) :
  (forall m, isServerReply m = true -> reply m = true) ->
  noFailure e = true \/ (forall replyId, reply (glitchMessage replyId) = true) ->
  SessionShape reply base s added ->
  exists added', SessionShape reply base (chatStep s e) added'.
Proof.
  intros Hok Hfail [Hex Hs].
  destruct e as [text|prompt|userId|replyId|replyId]; cbn [chatStep].
  - (* typing *)
    exists added. split; [exact Hex|]. cbn [view inFlight].
    destruct (inFlight s); exact Hs.
  - (* a sample prompt *)
    exists added. split; [exact Hex|]. cbn [view inFlight].
    unfold handlePromptSelect.
    destruct (inFlight s) as [request|].
    + destruct Hs as (Hp & Hr & Hu). now rewrite Hp.
    + destruct Hs as (Hp & Hm). rewrite Hp. now split.
  - (* the form is submitted *)
    destruct (inFlight s) as [request|] eqn:Ef.
    + destruct Hs as (Hp & Hr & Hu).
      rewrite (beginSubmit_refuses userId (view s) (or_introl Hp)).
      exists added. split; [exact Hex|]. rewrite Ef. auto.
    + destruct Hs as (Hp & Hm).
      destruct (trim (input (view s))) as [|c t] eqn:Et.
      * rewrite (beginSubmit_refuses userId (view s) (or_intror Et)).
        exists added. split; [exact Hex|]. rewrite Ef. auto.
      * rewrite (beginSubmit_passes userId (view s) Hp)
          by (rewrite Et; discriminate).
        exists added. split; [exact Hex|]. cbn [view inFlight pending messages].
        split; [reflexivity|]. split.
        { unfold roundedMessages. cbn [messages]. rewrite map_app.
          reflexivity. }
        exists (userMessage userId (trim (input (view s)))). split.
        { unfold isUserTurn, userMessage. cbn [msgRole msgContent].
          rewrite trim_isTrimmed, Et. reflexivity. }
        now rewrite Hm, <- app_assoc.
  - (* the route answers *)
    destruct (inFlight s) as [request|] eqn:Ef.
    + destruct Hs as (Hp & Hr & u & Hu & Hm).
      assert (Eu : msgRole u = User)
        by (unfold isUserTurn in Hu; now destruct (msgRole u)).
      assert (Er : request
                   = List.map (fun m => {| role := msgRole m;
                                           content := msgContent m |})
                              (base ++ added)
                     ++ [{| role := msgRole u; content := msgContent u |}]).
      { rewrite Hr. unfold roundedMessages.
        now rewrite Hm, app_assoc, map_app. }
      destruct (serverFetch_answers
                  (List.map (fun m => {| role := msgRole m;
                                         content := msgContent m |})
                            (base ++ added))
                  {| role := msgRole u; content := msgContent u |})
        as (answer & Hf & Hrole & Hsteps & Hsugg).
      { unfold isUser. cbn [role]. now rewrite Eu. }
      rewrite Er, Hf.
      exists (added ++ [u; replyMessage replyId answer]). split.
      * rewrite (exchangesBy_app reply added _ Hex). cbn [exchangesBy].
        rewrite Hu, Hok; [reflexivity|].
        unfold isServerReply, replyMessage.
        cbn [msgRole msgSteps msgSuggestions].
        now rewrite Hrole, Hsteps, Hsugg.
      * cbn [view inFlight finishSubmit pending messages]. split; [reflexivity|].
        rewrite Hm, <- !app_assoc. reflexivity.
    + exists added. split; [exact Hex|]. now rewrite Ef.
  - (* the request fails *)
    destruct (inFlight s) as [request|] eqn:Ef.
    + destruct Hs as (Hp & Hr & u & Hu & Hm).
      destruct Hfail as [Hfail|Hfail]; [discriminate Hfail|].
      exists (added ++ [u; glitchMessage replyId]). split.
      * rewrite (exchangesBy_app reply added _ Hex). cbn [exchangesBy].
        now rewrite Hu, Hfail.
      * cbn [view inFlight finishSubmit pending messages]. split; [reflexivity|].
        rewrite Hm, <- !app_assoc. reflexivity.
    + exists added. split; [exact Hex|]. now rewrite Ef.
Qed.

Lemma chatRun_keeps {rt : Runtime} (reply : ConversationMessage -> bool)
    (base : list ConversationMessage) (events : list ChatEvent) :
  (forall m, isServerReply m = true -> reply m = true) ->
  forallb noFailure events = true
  \/ (forall replyId, reply (glitchMessage replyId) = true) ->
  forall s added,
    SessionShape reply base s added ->
    exists added', SessionShape reply base (chatRun s events) added'.
Proof.
  intros Hok Hfail. unfold chatRun.
  induction events as [|e events IH]; intros s added Hs; simpl.
  - now exists added.
  - assert (He : noFailure e = true
                 \/ (forall replyId, reply (glitchMessage replyId) = true)).
    { destruct Hfail as [H|H]; [left | now right].
      simpl in H. now apply andb_true_iff in H as [H _]. }
    destruct (chatStep_keeps reply base s e added Hok He Hs) as (added' & Hs').
    apply (IH ltac:(destruct Hfail as [H|H];
                    [left; simpl in H; now apply andb_true_iff in H as [_ H]
                    | now right]) _ added' Hs').
Qed.

Lemma SessionShape_added (reply reply' : ConversationMessage -> bool)
    (base : list ConversationMessage) (s : ChatSession)
    (added added' : list ConversationMessage) :
  SessionShape reply base s added -> SessionShape reply' base s added' ->
  added = added'.
Proof.
  intros [_ H] [_ H']. destruct (inFlight s) as [request|].
  - destruct H as (_ & _ & u & _ & Hm). destruct H' as (_ & _ & u' & _ & Hm').
    rewrite Hm in Hm'. apply app_inv_head in Hm'.
    now apply app_inj_tail in Hm' as [E _].
  - destruct H as [_ Hm]. destruct H' as [_ Hm'].
    rewrite Hm in Hm'. now apply app_inv_head in Hm'.
Qed.

(** X19: whatever is typed, picked and submitted, and however the requests
    end, the conversation is the greeting followed by complete exchanges, a
    non-empty trimmed user message and then the dispatcher's reply with
    three steps and three suggestions, or the glitch message where the
    request failed; while a request is in flight the chat is pending, the
    user's message is on top and the request body is what is shown; the
    roles take turns; and when no request fails on the way, the glitch
    message never appears. *)
Theorem chatRun_conversation {rt : Runtime} (firstId : jsstring)
    (events : list ChatEvent) :
  exists added,
    exchangesBy isAnswer added = true
    /\ (forallb noFailure events = true ->
        exchangesBy isServerReply added = true)
    /\ match inFlight (chatRun (startSession firstId) events) with
       | None =>
           pending (view (chatRun (startSession firstId) events)) = false
           /\ messages (view (chatRun (startSession firstId) events))
              = messages (initialState firstId) ++ added
       | Some request =>
           pending (view (chatRun (startSession firstId) events)) = true
           /\ request
              = roundedMessages (view (chatRun (startSession firstId) events))
           /\ exists u,
                isUserTurn u = true
                /\ messages (view (chatRun (startSession firstId) events))
                   = messages (initialState firstId) ++ added ++ [u]
       end
    /\ takesTurns true
         (List.map msgRole
            (messages (view (chatRun (startSession firstId) events))))
       = true.
Proof.
  set (base := messages (initialState firstId)).
  assert (H0 : forall reply, SessionShape reply base (startSession firstId) [])
    by (intros reply; split; [reflexivity | split; [reflexivity|];
        unfold base; now rewrite app_nil_r]).
  destruct (chatRun_keeps isAnswer base events
              (fun m H => orb_true_intro _ _ (or_introl H))
              (or_intror (fun _ => eq_refl)) _ [] (H0 isAnswer))
    as (added & Ha).
  exists added. split; [exact (proj1 Ha)|]. split; [|split].
  - intros Hclean.
    destruct (chatRun_keeps isServerReply base events (fun m H => H)
                (or_introl Hclean) _ [] (H0 isServerReply))
      as (added' & Hs).
    rewrite (SessionShape_added _ _ _ _ _ _ Ha Hs). exact (proj1 Hs).
  - exact (proj2 Ha).
  - destruct Ha as [Hex Hs].
    destruct (inFlight (chatRun (startSession firstId) events)) as [request|].
    + destruct Hs as (_ & _ & u & Hu & ->). unfold base. cbn [initialState messages].
      cbn [app List.map takesTurns andb]. rewrite map_app.
      rewrite (exchangesBy_turns isAnswer added _ isAnswer_role Hex).
      unfold isUserTurn in Hu. simpl. now destruct (msgRole u).
    + destruct Hs as (_ & ->). unfold base. cbn [initialState messages].
      cbn [app List.map takesTurns andb].
      rewrite <- (app_nil_r (List.map msgRole added)).
      now rewrite (exchangesBy_turns isAnswer added [] isAnswer_role Hex).
Qed.

(** The state in flight is reached by typing a message that is not blank
    and submitting it: the chat is pending, the trimmed message is shown
    without a reply, and the request carries the conversation. *)
Lemma chatRun_in_flight {rt : Runtime} (firstId text userId : jsstring) :
  trim text <> [] ->
  chatRun (startSession firstId) [Typed text; Submitted userId]
  = {| view := {| messages := messages (initialState firstId)
                              ++ [userMessage userId (trim text)];
                  input := [];
                  pending := true |};
       inFlight := Some (roundedMessages (initialState firstId)
                         ++ [{| role := User; content := trim text |}]) |}.
Proof.
  intros Ht. unfold chatRun. cbn [fold_left chatStep startSession view inFlight].
  rewrite (beginSubmit_passes userId (setInput text (initialState firstId)))
    by (try reflexivity; exact Ht).
  reflexivity.
Qed.

(* ================================================================= *)
(** ** The blocks of a bubble *)

Lemma consChar_nonempty (c : char) (pieces : list jsstring) :
  consChar c pieces <> [].
Proof. destruct pieces; discriminate. Qed.

Lemma splitBlankFrom_nonempty (s : jsstring) :
  forall inRun, splitBlankFrom inRun s <> [].
Proof.
  induction s as [|c s IH]; intros inRun; simpl; [discriminate|].
  destruct (c =? newline); [|apply consChar_nonempty].
  destruct inRun; [apply IH|].
  destruct s as [|d s]; [apply consChar_nonempty|].
  destruct (d =? newline); [discriminate | apply consChar_nonempty].
Qed.

Lemma noBlankLine_cons (c : char) (p : jsstring) :
  (c =? newline) = false -> noBlankLine (c :: p) = noBlankLine p.
Proof. intros H. unfold noBlankLine. simpl. now rewrite H. Qed.

Lemma noBlankLine_newline_cons (d : char) (p : jsstring) :
  (d =? newline) = false ->
  noBlankLine (newline :: d :: p) = noBlankLine (d :: p).
Proof. intros H. unfold noBlankLine. simpl. now rewrite H. Qed.

Lemma Forall_consChar (P : jsstring -> Prop) (c : char)
    (pieces : list jsstring) :
  (forall p, P p -> P (c :: p)) -> P [c] ->
  Forall P pieces -> Forall P (consChar c pieces).
Proof.
  intros Hc H1 H. destruct H as [|p ps Hp Hps]; simpl.
  - now repeat constructor.
  - constructor; auto.
Qed.

Lemma splitBlankFrom_other (inRun : bool) (c : char) (s : jsstring) :
  (c =? newline) = false ->
  splitBlankFrom inRun (c :: s) = consChar c (splitBlankFrom false s).
Proof. intros H. cbn [splitBlankFrom]. now rewrite H. Qed.

Lemma splitBlankFrom_skip (s : jsstring) :
  splitBlankFrom true (newline :: s) = splitBlankFrom true s.
Proof. reflexivity. Qed.

Lemma splitBlankFrom_break (s : jsstring) :
  splitBlankFrom false (newline :: newline :: s)
  = [] :: splitBlankFrom true s.
Proof. reflexivity. Qed.

Lemma splitBlankFrom_single (d : char) (s : jsstring) :
  (d =? newline) = false ->
  splitBlankFrom false (newline :: d :: s)
  = consChar newline (consChar d (splitBlankFrom false s)).
Proof. intros H. cbn [splitBlankFrom]. now rewrite N.eqb_refl, H. Qed.

Lemma consChar_shape (c : char) (pieces : list jsstring) :
  exists p ps, consChar c pieces = (c :: p) :: ps
               /\ (pieces = [] /\ p = [] /\ ps = [] \/ pieces = p :: ps).
Proof.
  destruct pieces as [|p ps]; simpl.
  - exists [], []. auto.
  - exists p, ps. auto.
Qed.

Lemma splitBlankFrom_pieces (s : jsstring) :
  forall inRun, Forall (fun p => noBlankLine p = true) (splitBlankFrom inRun s).
Proof.
  induction s as [|c s IH]; intros inRun; [now repeat constructor|].
  destruct (N.eqb_spec c newline) as [->|Hc].
  - destruct inRun; [rewrite splitBlankFrom_skip; apply IH|].
    destruct s as [|d s]; [now repeat constructor|].
    destruct (N.eqb_spec d newline) as [->|Hd].
    + rewrite splitBlankFrom_break. constructor; [reflexivity|].
      specialize (IH true). now rewrite splitBlankFrom_skip in IH.
    + apply N.eqb_neq in Hd. rewrite (splitBlankFrom_single d s Hd).
      specialize (IH false). rewrite (splitBlankFrom_other false d s Hd) in IH.
      destruct (consChar_shape d (splitBlankFrom false s)) as (p & ps & E & _).
      rewrite E in *. simpl. inversion IH; subst.
      constructor; [|assumption]. now rewrite noBlankLine_newline_cons.
  - apply N.eqb_neq in Hc. rewrite (splitBlankFrom_other inRun c s Hc).
    apply Forall_consChar; [| | apply IH].
    + intros p Hp. now rewrite noBlankLine_cons.
    + unfold noBlankLine. simpl. now rewrite Hc.
Qed.

Lemma incl_dropDashes (s : jsstring) : incl (dropDashes s) s.
Proof.
  induction s as [|c s IH]; simpl; [apply incl_refl|].
  destruct (c =? dash); [now apply incl_tl | apply incl_refl].
Qed.

Lemma incl_stripBullet (line : jsstring) : incl (stripBullet line) line.
Proof.
  unfold stripBullet. destruct line as [|c line]; [apply incl_refl|].
  destruct (c =? dash); [|apply incl_refl].
  intros x Hx. now apply incl_dropDashes, incl_trimStart.
Qed.

Lemma formatParagraph_items (paragraph : jsstring) (items : list jsstring)
    (item : jsstring) :
  formatParagraph paragraph = BulletList items -> In item items ->
  item <> [] /\ isTrimmed item = true /\ noNewline item = true.
Proof.
  unfold formatParagraph.
  destruct (startsWith (lit "- ") (trim paragraph)
            || includes (newline :: lit "- ") paragraph); [|discriminate].
  intros H. injection H as <-. intros Hin.
  apply filter_In in Hin as [Hin Hne].
  apply in_map_iff in Hin as (line & <- & Hline).
  split; [now destruct (trim (stripBullet line))|].
  split; [apply trim_isTrimmed|].
  unfold noNewline. apply forallb_forall. intros c Hc.
  apply incl_trim, incl_stripBullet in Hc.
  pose proof (splitOn_pieces (fun c => c =? newline) paragraph) as F.
  rewrite Forall_forall in F. specialize (F line Hline).
  rewrite forallb_forall in F. now apply F.
Qed.

(** X20: a bubble always has at least one block, an empty paragraph for an
    empty content; no paragraph has a blank line or a bullet line in it;
    and every item of a list is a non-empty single line without surrounding
    white space. *)
Theorem formatContent_blocks (content : jsstring) :
  formatContent content <> []
  /\ (forall text,
        In (Paragraph text) (formatContent content) ->
        noBlankLine text = true
        /\ includes (newline :: lit "- ") text = false
        /\ startsWith (lit "- ") (trim text) = false)
  /\ (forall items item,
        In (BulletList items) (formatContent content) -> In item items ->
        item <> [] /\ isTrimmed item = true /\ noNewline item = true)
  /\ formatContent [] = [Paragraph []].
Proof.
  unfold formatContent, splitBlank. repeat split.
  - pose proof (splitBlankFrom_nonempty (trim content) false).
    destruct (splitBlankFrom false (trim content)); [congruence | discriminate].
  - apply in_map_iff in H as (p & Hp & Hin).
    pose proof (splitBlankFrom_pieces (trim content) false) as F.
    rewrite Forall_forall in F. specialize (F p Hin).
    unfold formatParagraph in Hp.
    destruct (startsWith (lit "- ") (trim p)
              || includes (newline :: lit "- ") p); [discriminate|].
    now injection Hp as <-.
  - apply in_map_iff in H as (p & Hp & _). unfold formatParagraph in Hp.
    destruct (startsWith (lit "- ") (trim p)) eqn:E1;
      destruct (includes (newline :: lit "- ") p) eqn:E2;
      try discriminate Hp. now injection Hp as <-.
  - apply in_map_iff in H as (p & Hp & _). unfold formatParagraph in Hp.
    destruct (startsWith (lit "- ") (trim p)) eqn:E1;
      destruct (includes (newline :: lit "- ") p) eqn:E2;
      try discriminate Hp. now injection Hp as <-.
  - apply in_map_iff in H as (p & Hp & _).
    now destruct (formatParagraph_items p items item Hp H0).
  - apply in_map_iff in H as (p & Hp & _).
    now destruct (formatParagraph_items p items item Hp H0) as (_ & ? & _).
  - apply in_map_iff in H as (p & Hp & _).
    now destruct (formatParagraph_items p items item Hp H0) as (_ & _ & ?).
Qed.

(* ================================================================= *)
(** ** A summary in a bubble *)

Lemma trimStart_idempotent (s : jsstring) : trimStart (trimStart s) = trimStart s.
Proof.
  destruct (trimStart_cases s) as [->|(c & u & -> & Hc)]; [reflexivity|].
  now apply trimStart_head.
Qed.

Lemma trim_trimStart (s : jsstring) : trim (trimStart s) = trim s.
Proof. unfold trim. now rewrite trimStart_idempotent. Qed.

Lemma trimEnd_app_keep (a b : jsstring) :
  trimEnd b <> [] -> trimEnd (a ++ b) = a ++ trimEnd b.
Proof.
  intros Hb. induction a as [|c a IH]; [reflexivity|].
  simpl app. rewrite trimEnd_cons, IH.
  destruct (a ++ trimEnd b) eqn:E; [|reflexivity].
  apply app_eq_nil in E as [_ E]. congruence.
Qed.

Lemma trimEnd_last_line (a b : jsstring) :
  trimEnd b <> [] -> trimEnd (a ++ newline :: b) = a ++ newline :: trimEnd b.
Proof.
  intros Hb. change (a ++ newline :: b) with (a ++ [newline] ++ b).
  rewrite app_assoc, (trimEnd_app_keep (a ++ [newline]) b Hb).
  now rewrite <- app_assoc.
Qed.

Lemma trimEnd_solid_head (c : char) (x : jsstring) :
  isSpace c = false -> trimEnd (c :: x) <> [].
Proof. intros H. now rewrite (trimEnd_head c x H). Qed.

Lemma trim_solid_head (c : char) (x : jsstring) :
  isSpace c = false -> trim (c :: x) = trimEnd (c :: x).
Proof. intros H. unfold trim. now rewrite (trimStart_head c x H). Qed.

Lemma join_snoc (sep : jsstring) (parts : list jsstring) (l : jsstring) :
  parts <> [] -> join sep (parts ++ [l]) = join sep parts ++ sep ++ l.
Proof.
  induction parts as [|p parts IH]; [congruence|]. intros _.
  destruct parts as [|q parts]; [reflexivity|].
  change (join sep ((p :: q :: parts) ++ [l]))
    with (p ++ sep ++ join sep ((q :: parts) ++ [l])).
  rewrite IH by discriminate.
  change (join sep (p :: q :: parts)) with (p ++ sep ++ join sep (q :: parts)).
  now rewrite <- !app_assoc.
Qed.

Lemma includes_intro (w a b : jsstring) : includes w (a ++ w ++ b) = true.
Proof.
  induction a as [|c a IH]; simpl.
  - destruct (w ++ b) eqn:E; cbn [includes];
      rewrite <- E, startsWith_app; reflexivity.
  - rewrite IH. apply orb_true_r.
Qed.

Lemma includes_second_line (h y : jsstring) (rest : list jsstring) :
  includes (newline :: lit "- ")
           (join [newline] (h :: (lit "- " ++ y) :: rest))
  = true.
Proof.
  assert (E : exists z, join [newline] ((lit "- " ++ y) :: rest)
                        = lit "- " ++ z)
    by (destruct rest; simpl; eexists; reflexivity).
  destruct E as (z & E).
  change (join [newline] (h :: (lit "- " ++ y) :: rest))
    with (h ++ newline :: join [newline] ((lit "- " ++ y) :: rest)).
  rewrite E. apply (includes_intro (newline :: lit "- ") h z).
Qed.

(** The list item of a bullet [- x], trimmed at its end or not. *)
Lemma bullet_item (c : char) (x : jsstring) :
  isSpace c = false ->
  trim (stripBullet (lit "- " ++ c :: x)) = trim (c :: x)
  /\ trim (stripBullet (trimEnd (lit "- " ++ c :: x))) = trim (c :: x)
  /\ trimEnd (lit "- " ++ c :: x) = lit "- " ++ trimEnd (c :: x).
Proof.
  intros Hc.
  assert (E : trimEnd (lit "- " ++ c :: x) = lit "- " ++ trimEnd (c :: x))
    by (apply trimEnd_app_keep; now apply trimEnd_solid_head).
  split; [|split; [|exact E]].
  - unfold stripBullet. simpl. now rewrite Hc.
  - rewrite E, (trimEnd_head c x Hc). unfold stripBullet. simpl. rewrite Hc.
    rewrite <- (trimEnd_head c x Hc), <- (trim_solid_head c x Hc).
    apply trim_idempotent.
Qed.

Lemma fold_consChar (p : jsstring) (q : jsstring) :
  fold_right consChar [q] p = [p ++ q].
Proof. induction p as [|c p IH]; simpl; [reflexivity | now rewrite IH]. Qed.

Lemma splitBlankFrom_line (p rest : jsstring) (inRun : bool) :
  noNewline p = true -> p <> [] ->
  splitBlankFrom inRun (p ++ rest)
  = fold_right consChar (splitBlankFrom false rest) p.
Proof.
  intros Hp Hne. revert inRun. induction p as [|c p IH]; [congruence|].
  intros inRun. simpl in Hp. apply andb_true_iff in Hp as [Hc Hp].
  apply negb_true_iff in Hc. simpl app.
  rewrite (splitBlankFrom_other inRun c (p ++ rest) Hc). simpl. f_equal.
  destruct p as [|d p]; [reflexivity|]. apply IH; [exact Hp | discriminate].
Qed.

(** A text of non-empty lines is one paragraph. *)
Lemma splitBlank_lines (lines : list jsstring) :
  lines <> [] ->
  Forall (fun l => noNewline l = true /\ l <> []) lines ->
  splitBlank (join [newline] lines) = [join [newline] lines].
Proof.
  unfold splitBlank. induction lines as [|p lines IH]; [congruence|].
  intros _ H. inversion H as [|? ? [Hp Hne] Hrest]; subst.
  destruct lines as [|q lines].
  - simpl join. rewrite <- (app_nil_r p) at 1.
    rewrite (splitBlankFrom_line p [] false Hp Hne). simpl.
    rewrite fold_consChar. now rewrite app_nil_r.
  - change (join [newline] (p :: q :: lines))
      with (p ++ newline :: join [newline] (q :: lines)).
    rewrite (splitBlankFrom_line p _ false Hp Hne).
    specialize (IH ltac:(discriminate) Hrest).
    inversion Hrest as [|? ? [Hq Hqne] _]; subst.
    assert (S : exists d rest, join [newline] (q :: lines) = d :: rest
                               /\ (d =? newline) = false).
    { destruct q as [|d q]; [congruence|]. simpl in Hq.
      apply andb_true_iff in Hq as [Hd _]. apply negb_true_iff in Hd.
      destruct lines; simpl; eauto. }
    destruct S as (d & rest & E & Hd). rewrite E in *.
    rewrite (splitBlankFrom_single d rest Hd).
    rewrite <- (splitBlankFrom_other false d rest Hd), IH. simpl.
    now rewrite fold_consChar.
Qed.

Lemma spokenLine_head (m : AgentMessage) :
  exists c x, spokenLine m = c :: x /\ isSpace c = false.
Proof.
  unfold spokenLine. destruct (isAssistant m); simpl; eauto.
Qed.

Lemma bulletOf_spokenLine (m : AgentMessage) :
  bulletOf m = lit "- " ++ spokenLine m.
Proof. reflexivity. Qed.

Lemma noNewline_trimEnd (s : jsstring) :
  noNewline s = true -> noNewline (trimEnd s) = true.
Proof.
  intros H. unfold trimEnd.
  now apply noNewline_rev, noNewline_trimStart, noNewline_rev.
Qed.

(** X21: in a bubble a summary is one list: its first item is the heading
    and the others are the bullets without their dash, trimmed. *)
Theorem formatContent_summary (shown : list AgentMessage) :
  shown <> [] ->
  formatContent (summaryOf shown)
  = [BulletList (summaryHeader :: List.map summaryItem shown)].
Proof.
  intros Hne.
  destruct (exists_last Hne) as (front & m & ->).
  destruct (spokenLine_head m) as (c & x & Em & Hc).
  destruct (bullet_item c x Hc) as (_ & Hlast & Hend).
  assert (HB : Forall (fun b => exists y, b = lit "- " ++ y
                                          /\ noNewline b = true)
                      (List.map bulletOf front)).
  { apply Forall_forall. intros b Hb.
    apply in_map_iff in Hb as (m' & <- & _).
    exists (spokenLine m'). split; [reflexivity | apply noNewline_bulletOf]. }
  assert (ES : summaryOf (front ++ [m])
               = join [newline]
                      ((summaryHeader :: List.map bulletOf front)
                       ++ [bulletOf m])).
  { unfold summaryOf. destruct (front ++ [m]) eqn:E.
    - now apply app_eq_nil in E as [_ E].
    - rewrite <- E, map_app. reflexivity. }
  assert (EB : forall ms,
             filter (fun item => negb (isEmpty item))
                    (List.map (fun line => trim (stripBullet line))
                              (List.map bulletOf ms))
             = List.map summaryItem ms).
  { induction ms as [|m' ms IH]; [reflexivity|]. cbn [List.map filter].
    destruct (spokenLine_head m') as (c' & x' & Em' & Hc').
    destruct (bullet_item c' x' Hc') as (E1 & _ & _).
    rewrite bulletOf_spokenLine, Em', E1. unfold summaryItem at 1.
    rewrite Em', (trim_solid_head c' x' Hc'), (trimEnd_head c' x' Hc').
    cbn [isEmpty negb]. now rewrite IH. }
  remember (List.map bulletOf front) as bullets eqn:Eb.
  remember ((summaryHeader :: bullets) ++ [trimEnd (bulletOf m)]) as lines
    eqn:El.
  assert (ET : trim (summaryOf (front ++ [m])) = join [newline] lines).
  { rewrite ES, El. unfold trim.
    rewrite !join_snoc by discriminate.
    assert (Eh : exists rest, join [newline] (summaryHeader :: bullets)
                              = 72 :: rest)
      by (destruct bullets; simpl; eexists; reflexivity).
    destruct Eh as (rest & ->). simpl app at 1.
    rewrite trimStart_head by reflexivity.
    change (trimEnd ((72 :: rest) ++ newline :: bulletOf m)
            = (72 :: rest) ++ newline :: trimEnd (bulletOf m)).
    apply trimEnd_last_line.
    rewrite bulletOf_spokenLine, Em, Hend. discriminate. }
  assert (HL : Forall (fun l => noNewline l = true /\ l <> []) lines).
  { rewrite El. apply Forall_app. split.
    - constructor; [split; [reflexivity | discriminate]|].
      eapply Forall_impl; [|exact HB]. intros b (y & -> & Hb).
      split; [exact Hb | discriminate].
    - constructor; [|constructor]. split.
      + apply noNewline_trimEnd, noNewline_bulletOf.
      + rewrite bulletOf_spokenLine, Em, Hend. discriminate. }
  assert (EI : includes (newline :: lit "- ") (join [newline] lines) = true).
  { rewrite El.
    assert (Elast : trimEnd (bulletOf m) = lit "- " ++ trimEnd (c :: x))
      by (rewrite bulletOf_spokenLine, Em; exact Hend).
    destruct bullets as [|b bs].
    - rewrite Elast.
      exact (includes_second_line summaryHeader (trimEnd (c :: x)) []).
    - inversion HB as [|? ? (y & -> & _) _]; subst.
      exact (includes_second_line summaryHeader y
               (bs ++ [trimEnd (bulletOf m)])). }
  unfold formatContent. rewrite ET.
  rewrite splitBlank_lines;
    [| rewrite El; discriminate | exact HL].
  cbn [List.map]. f_equal. unfold formatParagraph.
  rewrite EI, orb_true_r.
  rewrite linesOf_join;
    [| rewrite El; discriminate
     | apply forallb_forall; intros l Hl;
       rewrite Forall_forall in HL; now apply HL ].
  rewrite El, Eb, !map_app. cbn [List.map filter app].
  f_equal. rewrite filter_app, EB. f_equal. cbn [List.map filter].
  rewrite bulletOf_spokenLine, Em, Hlast. unfold summaryItem. rewrite Em.
  rewrite (trim_solid_head c x Hc), (trimEnd_head c x Hc). reflexivity.
Qed.

Lemma formatContent_summary_example :
  formatContent (summaryOf [say User "hello  there"; say Assistant " "])
  = [BulletList [summaryHeader; lit "You: hello there"; lit "Radius:"]].
Proof.
  apply (formatContent_summary [say User "hello  there"; say Assistant " "]).
  discriminate.
Defined.

(* ================================================================= *)
(** ** Scores, advice and letter case *)

(** X22: the urgency and impact of a task and the advice for a text do
    not depend on the case of ASCII letters. *)
Theorem scoring_caseBlind (s t : jsstring) :
  sameLetters s t ->
  urgencyScore s = urgencyScore t
  /\ impactScore s = impactScore t
  /\ matchKnowledge s = matchKnowledge t.
Proof.
  intros E.
  assert (H : forall ws, test (wordsi ws) s = test (wordsi ws) t)
    by (intros ws; apply test_sameLetters; [apply caseBlind_wordsi | exact E]).
  unfold urgencyScore, impactScore, matchKnowledge, urgencyPattern,
    highImpactPattern, mediumImpactPattern, KNOWLEDGE_BASE.
  cbn [find triggers existsb]. now rewrite !H.
Qed.

Lemma scoring_caseBlind_example :
  urgencyScore (lit "Ship it ASAP") = urgencyScore (lit "ship it asap").
Proof.
  apply (scoring_caseBlind (lit "Ship it ASAP") (lit "ship it asap")).
  reflexivity.
Defined.

(* ================================================================= *)
(** ** Requests the route answers with 500 *)

Lemma runAgent_newest_null {rt : Runtime} (front : list json) :
  runAgent (front ++ [JNull]) = Throw TypeError.
Proof. unfold runAgent. now rewrite rev_app_distr. Qed.

Lemma runAgent_newest_no_text {rt : Runtime} (front : list json)
    (fields : list (jsstring * json)) :
  lookup (lit "role") fields = Some (JString (lit "user")) ->
  (forall text, lookup (lit "content") fields <> Some (JString text)) ->
  runAgent (front ++ [JObject fields]) = Throw TypeError.
Proof.
  intros Hr Hc. unfold runAgent. rewrite rev_app_distr.
  cbn [rev app findM getProp bind]. rewrite Hr. cbn [isString bind].
  change (str_eqb (lit "user") (lit "user")) with true. cbn [bind getProp].
  destruct (lookup (lit "content") fields) as [[| | |text| |]|]; try reflexivity.
  now destruct (Hc text).
Qed.

(** X23: a request whose newest message is [null], or is a user message
    without a string content, is answered 500 with the fixed error,
    whatever comes before it. *)
Theorem POST_malformed_newest {rt : Runtime} (parsed : json)
    (front : list json) (newest : json) :
  messagesField parsed = Some (JArray (front ++ [newest])) ->
  newest = JNull
  \/ (exists fields,
        newest = JObject fields
        /\ lookup (lit "role") fields = Some (JString (lit "user"))
        /\ forall text, lookup (lit "content") fields <> Some (JString text)) ->
  POST (Ok parsed) = serverError.
Proof.
  intros Hm Hbad.
  assert (Hr : runAgent (front ++ [newest]) = Throw TypeError).
  { destruct Hbad as [->|(fields & -> & Hrole & Hc)].
    - apply runAgent_newest_null.
    - now apply runAgent_newest_no_text. }
  unfold POST. rewrite handle_parsed, Hm. cbn [nullish].
  destruct (front ++ [newest]) as [|x items] eqn:E.
  - now apply app_eq_nil in E as [_ E].
  - now rewrite Hr.
Qed.

Lemma POST_malformed_newest_example :
  @POST tableRuntime
    (Ok (JObject [(lit "messages",
                   JArray (ofMessages [say User "hello"]
                           ++ [JObject [(lit "role", JString (lit "user"));
                                        (lit "content", JNumber 42)]]))]))
  = serverError.
Proof.
  apply (@POST_malformed_newest tableRuntime
           (JObject [(lit "messages",
                      JArray (ofMessages [say User "hello"]
                              ++ [JObject [(lit "role", JString (lit "user"));
                                           (lit "content", JNumber 42)]]))])
           (ofMessages [say User "hello"])
           (JObject [(lit "role", JString (lit "user"));
                     (lit "content", JNumber 42)]) eq_refl).
  right. eexists. split; [reflexivity|]. split; [reflexivity|].
  intros text. discriminate.
Defined.
